(** * The Tracker.gg scoreboard extractor

    A shallow embedding of the function that both scraper scripts pass to
    [page.evaluate] (the parameterised script and [puppeteer/scrape_tracker.js]),
    and the properties of the match result it builds.

    Conventions of the embedding.
    - A JavaScript string is the list of its UTF-16 code units.
    - The rendered document is a snapshot: for every selector the function
      queries, the text of the elements it finds.
    - A callback that can raise [TypeError] returns a [completion].
    - A JavaScript Number is an IEEE 754 double: [SpecFloat]'s [spec_float]
      with 53 bits of precision, with its rounding to nearest, ties to even.
      [parseInt] and [parseFloat] round the number they read, as the engine of
      the browser does. *)

From Stdlib Require Import ZArith NArith Lia Ascii String SpecFloat.
From stdpp Require Import base tactics option list numbers.

Open Scope N_scope.

(** ** JavaScript strings *)

Abbreviation jsstring := (list N).

(** The code units of an ASCII literal. *)
Definition lit (s : string) : jsstring :=
  map N_of_ascii (list_ascii_of_string s).

(** WhiteSpace and LineTerminator code points, the ones [trim] and the number
    parsers skip. *)
Definition is_white_space (c : N) : bool :=
  (c =? 9) || (c =? 10) || (c =? 11) || (c =? 12) || (c =? 13) || (c =? 32)
  || (c =? 160) || (c =? 5760) || ((8192 <=? c) && (c <=? 8202))
  || (c =? 8232) || (c =? 8233) || (c =? 8239) || (c =? 8287)
  || (c =? 12288) || (c =? 65279).

Fixpoint trimStart (s : jsstring) : jsstring :=
  match s with
  | c :: s' => if is_white_space c then trimStart s' else s
  | [] => []
  end.

Definition trimEnd (s : jsstring) : jsstring := rev (trimStart (rev s)).

Definition trim (s : jsstring) : jsstring := trimEnd (trimStart s).

(** [s.endsWith('#')] and [s.startsWith('#')], for a one-unit argument [c]. *)
Definition endsWith (s : jsstring) (c : N) : bool :=
  match list.last s with
  | Some d => d =? c
  | None => false
  end.

Definition startsWith (s : jsstring) (c : N) : bool :=
  match s with
  | d :: _ => d =? c
  | [] => false
  end.

(** [s.slice(0, -1)] and [s.slice(1)]. *)
Definition slice_0_m1 (s : jsstring) : jsstring := removelast s.
Definition slice_1 (s : jsstring) : jsstring := drop 1 s.

(** [s.replace(/[+,%]/g, "")]: every '+' (43), ',' (44) and '%' (37) removed. *)
Definition is_plus_comma_percent (c : N) : bool :=
  (c =? 43) || (c =? 44) || (c =? 37).

Fixpoint replace_plus_comma_percent (s : jsstring) : jsstring :=
  match s with
  | c :: s' =>
      if is_plus_comma_percent c then replace_plus_comma_percent s'
      else c :: replace_plus_comma_percent s'
  | [] => []
  end.

(** [a || b] on strings: the empty string and [undefined] are falsy. *)
Definition or_string (a : option jsstring) (b : jsstring) : jsstring :=
  match a with
  | Some (c :: s) => c :: s
  | _ => b
  end.

(** [a ?? b]: only [undefined] and [null] give way. *)
Definition nullish_string (a : option jsstring) (b : jsstring) : jsstring :=
  match a with
  | Some s => s
  | None => b
  end.

(** [ToString] of a value that is a string or [undefined]. *)
Definition ToString (v : option jsstring) : jsstring :=
  match v with
  | Some s => s
  | None => lit "undefined"
  end.

(** ** Numbers *)

Abbreviation Number := spec_float.
Abbreviation NaN := S754_nan.

(** The Number [+0]. *)
Definition zero : Number := S754_zero false.

(** The Number for the integer [z]: the nearest double, ties to even. *)
Definition round_integer (z : Z) : Number := binary_normalize 53 1024 z 0 false.

(** The Number for [mantissa * 10^exponent], rounded once: for a negative
    exponent the quotient is taken with the digit that tells on which side of
    the half it lies. *)
Definition round_decimal (negative : bool) (mantissa : positive)
    (exponent : Z) : Number :=
  match exponent with
  | Zneg k =>
      let '(q, e, l) :=
        SFdiv_core_binary 53 1024 (Zpos mantissa) 0 (Zpos (10 ^ k)) 0 in
      binary_round_aux 53 1024 negative q e l
  | _ =>
      binary_round 53 1024 negative
        (mantissa * Z.to_pos (10 ^ exponent)) 0
  end.

(** [x + y] and [x > y] on Numbers. *)
Definition number_add (x y : Number) : Number := SFadd 53 1024 x y.
Definition number_gt (x y : Number) : bool := SFltb y x.

(** The integer that a Number stands for, when it is finite and whole. *)
Definition integer_value (x : Number) : option Z :=
  match x with
  | S754_zero _ => Some 0%Z
  | S754_finite s m e =>
      if (0 <=? e)%Z then Some (cond_Zopp s (Zpos m * 2 ^ e))
      else if (Zpos m mod 2 ^ (- e) =? 0)%Z
           then Some (cond_Zopp s (Zpos m / 2 ^ (- e)))
           else None
  | _ => None
  end.

(** The value of a digit character: 0-9, then a-z and A-Z for 10-35. *)
Definition digit_value (c : N) : option N :=
  if (48 <=? c) && (c <=? 57) then Some (c - 48)
  else if (97 <=? c) && (c <=? 122) then Some (c - 87)
  else if (65 <=? c) && (c <=? 90) then Some (c - 55)
  else None.

Definition radix_digit (R c : N) : option N :=
  match digit_value c with
  | Some d => if d <? R then Some d else None
  | None => None
  end.

(** The digits of the longest prefix of [s] made of radix-[R] digits. *)
Fixpoint radix_prefix (R : N) (s : jsstring) : list N :=
  match s with
  | c :: s' =>
      match radix_digit R c with
      | Some d => d :: radix_prefix R s'
      | None => []
      end
  | [] => []
  end.

Definition radix_value (R : N) (ds : list N) : N :=
  fold_left (fun acc d => acc * R + d) ds 0.

(** A leading [0x] or [0X]. *)
Definition startsWith_0x (s : jsstring) : bool :=
  match s with
  | a :: b :: _ => (a =? 48) && ((b =? 120) || (b =? 88))
  | _ => false
  end.

(** The first steps of [parseInt(string, radix)]: the sign and the integer
    written by the longest run of digits, when there is a digit; [radix = 0]
    stands for an omitted radix. *)
Definition read_integer (string : jsstring) (radix : N) : option (bool * N) :=
  let str := trimStart string in
  let negative := startsWith str 45 in
  let str := if startsWith str 43 || startsWith str 45 then slice_1 str
             else str in
  let R := if radix =? 0 then 10 else radix in
  let stripPrefix := (radix =? 0) || (radix =? 16) in
  if (R <? 2) || (36 <? R) then None
  else
    let hex := stripPrefix && startsWith_0x str in
    let str := if hex then drop 2 str else str in
    let R := if hex then 16 else R in
    match radix_prefix R str with
    | [] => None
    | ds => Some (negative, radix_value R ds)
    end.

(** [parseInt(string, radix)]: NaN without a digit, a zero with the sign
    read, and otherwise the Number for the signed integer. *)
Definition parseInt (string : jsstring) (radix : N) : Number :=
  match read_integer string radix with
  | None => NaN
  | Some (negative, mathInt) =>
      if mathInt =? 0 then S754_zero negative
      else round_integer (cond_Zopp negative (Z.of_N mathInt))
  end.

(** [n || 0]: NaN and both zeros are falsy. *)
Definition or_zero (n : Number) : Number :=
  match n with
  | S754_nan => zero
  | S754_zero _ => zero
  | _ => n
  end.

(** The decimal literal at the start of a string:
    [(-1)^negative * mantissa * 10^exponent], an infinity, or none. *)
Inductive Literal : Type :=
  | NoLiteral
  | InfinityLiteral (negative : bool)
  | DecimalLiteral (negative : bool) (mantissa : N) (exponent : Z).

Definition decimal_digits (s : jsstring) : list N := radix_prefix 10 s.

(** ExponentPart: 'e' or 'E', an optional sign, at least one digit; without
    a digit there is no exponent part, and the exponent is 0 as well. *)
Definition exponent_part (s : jsstring) : Z :=
  let value ds := Z.of_N (radix_value 10 (decimal_digits ds)) in
  match s with
  | 101 :: 43 :: ds => value ds
  | 69 :: 43 :: ds => value ds
  | 101 :: 45 :: ds => (- value ds)%Z
  | 69 :: 45 :: ds => (- value ds)%Z
  | 101 :: ds => value ds
  | 69 :: ds => value ds
  | _ => 0%Z
  end.

Definition is_nil {A} (l : list A) : bool :=
  match l with
  | [] => true
  | _ => false
  end.

(** StrUnsignedDecimalLiteral: the longest prefix of [s] that is [Infinity],
    or digits with an optional fraction and exponent. *)
Definition unsigned_decimal (negative : bool) (s : jsstring) : Literal :=
  if bool_decide (take 8 s = lit "Infinity") then InfinityLiteral negative
  else
    let int_ds := decimal_digits s in
    let rest := drop (length int_ds) s in
    let '(frac_ds, rest) :=
      match rest with
      | 46 :: rest' =>
          let f := decimal_digits rest' in
          if is_nil int_ds && is_nil f then ([], rest)
          else (f, drop (length f) rest')
      | _ => ([], rest)
      end in
    if is_nil int_ds && is_nil frac_ds then NoLiteral
    else DecimalLiteral negative (radix_value 10 (int_ds ++ frac_ds))
           (exponent_part rest - Z.of_nat (length frac_ds)).

(** The longest prefix of the trimmed string that is a StrDecimalLiteral. *)
Definition decimal_literal (string : jsstring) : Literal :=
  let str := trimStart string in
  if startsWith str 43 then unsigned_decimal false (slice_1 str)
  else if startsWith str 45 then unsigned_decimal true (slice_1 str)
  else unsigned_decimal false str.

(** The Number of a literal. *)
Definition number_of_literal (l : Literal) : Number :=
  match l with
  | NoLiteral => NaN
  | InfinityLiteral negative => S754_infinity negative
  | DecimalLiteral negative 0 _ => S754_zero negative
  | DecimalLiteral negative (Npos mantissa) exponent =>
      round_decimal negative mantissa exponent
  end.

(** [parseFloat(string)]. *)
Definition parseFloat (string : jsstring) : Number :=
  number_of_literal (decimal_literal string).

(** ** Completions: a value, or a thrown [TypeError] *)

Inductive completion (A : Type) : Type :=
  | Normal (a : A)
  | Throw.
Arguments Normal {A} a.
Arguments Throw {A}.

#[global] Instance completion_ret : MRet completion := fun A => @Normal A.
#[global] Instance completion_bind : MBind completion :=
  fun A B f m =>
    match m with
    | Normal a => f a
    | Throw => Throw
    end.

(** [array.map(callback)] with a callback that receives the element and its
    index; [index] is the index of the head of [array]. A throw in one call
    ends the whole map. *)
Fixpoint array_map {A B} (callback : A -> nat -> completion B)
    (index : nat) (array : list A) : completion (list B) :=
  match array with
  | [] => Normal []
  | x :: rest =>
      y ← callback x index;
      ys ← array_map callback (S index) rest;
      mret (y :: ys)
  end.

(** ** The document snapshot *)

(** One [.st-content__item] row: the [textContent] of its
    [.trn-ign__username] and [.trn-ign__discriminator] elements, the [alt] of
    its agent image and of its rank image (each absent when the selector finds
    nothing), and the [textContent] of its [.st-content__item-value] cells. *)
Record Row : Type := {
  username : option jsstring;
  discriminator : option jsstring;
  agentImg_alt : option jsstring;
  rankImg_alt : option jsstring;
  item_values : list jsstring
}.

Record Document : Type := {
  header_labels : list jsstring;
  header_values : list jsstring;
  st_content_items : list Row;
  team_1_value : option jsstring;
  team_2_value : option jsstring
}.

(** ** The result *)

Module PlayerRecord.
Record t : Type := make {
  name : jsstring;
  agent : jsstring;
  team : jsstring;
  tier : jsstring;
  score : Number;
  kills : Number;
  deaths : Number;
  assists : Number;
  plus_minus : jsstring;
  kd_ratio : Number;
  dda : jsstring;
  adr : Number;
  hs_pct : Number;
  kast_pct : jsstring;
  fk : Number;
  fd : Number;
  mk : Number
}.
End PlayerRecord.

Module MatchResult.
Record t : Type := make {
  map : jsstring;
  mode : jsstring;
  team1_score : Number;
  team2_score : Number;
  round_count : Number;
  won : bool;
  players : list PlayerRecord.t
}.
End MatchResult.

(** ** The extractor *)

Definition knownMaps : list jsstring :=
  [ lit "Ascent"; lit "Bind"; lit "Breeze"; lit "Fracture"; lit "Haven";
    lit "Icebox"; lit "Lotus"; lit "Pearl"; lit "Split"; lit "Sunset";
    lit "Deadlock"; lit "Abyss" ].

(** [val.replace] throws when [val] is [undefined]. *)
Definition toFloat (val : option jsstring) : completion Number :=
  match val with
  | Some s => Normal (or_zero (parseFloat (replace_plus_comma_percent s)))
  | None => Throw
  end.

Definition toInt (val : option jsstring) : completion Number :=
  match val with
  | Some s => Normal (or_zero (parseInt (replace_plus_comma_percent s) 10))
  | None => Throw
  end.

(** [values[0] || ""], over the trimmed header values. *)
Definition mapText_of (document : Document) : jsstring :=
  or_string ((trim <$> header_values document) !! 0%nat) [].

(** [knownMaps.includes(mapText) ? mapText : "Unknown"]. *)
Definition map_of (mapText : jsstring) : jsstring :=
  if bool_decide (mapText ∈ knownMaps) then mapText else lit "Unknown".

Definition rawName_of (row : Row) : jsstring :=
  or_string (trim <$> username row) [].

Definition rawTag_of (row : Row) : jsstring :=
  or_string (trim <$> discriminator row) [].

(** [!rawName || !rawTag]. *)
Definition rejected (row : Row) : bool :=
  is_nil (rawName_of row) || is_nil (rawTag_of row).

Definition cleanName_of (rawName : jsstring) : jsstring :=
  if endsWith rawName 35 then slice_0_m1 rawName else rawName.

Definition cleanTag_of (rawTag : jsstring) : jsstring :=
  if startsWith rawTag 35 then slice_1 rawTag else rawTag.

(** The template [`${cleanName}#${cleanTag}`]. *)
Definition name_of (rawName rawTag : jsstring) : jsstring :=
  cleanName_of rawName ++ lit "#" ++ cleanTag_of rawTag.

(** The trimmed text of the row's stat cells. *)
Definition cells_of (row : Row) : list jsstring := trim <$> item_values row.

Definition team_of (index : nat) : jsstring :=
  if (index <? 5)%nat then lit "Red" else lit "Blue".

(** The callback of [rows.map]: [None] is the [null] of a skipped row. *)
Definition row_callback (row : Row) (index : nat)
  : completion (option PlayerRecord.t) :=
  let rawName := rawName_of row in
  let rawTag := rawTag_of row in
  if rejected row then Normal None
  else
    let name := name_of rawName rawTag in
    let agent := or_string (trim <$> agentImg_alt row) (lit "?") in
    let tier := nullish_string (rankImg_alt row) (lit "?") in
    let cells := cells_of row in
    let team := team_of index in
    score ← toInt (cells !! 2%nat);
    kills ← toInt (cells !! 3%nat);
    deaths ← toInt (cells !! 4%nat);
    assists ← toInt (cells !! 5%nat);
    let plus_minus := or_string (cells !! 6%nat) (lit "?") in
    kd_ratio ← toFloat (cells !! 7%nat);
    let dda := or_string (cells !! 8%nat) (lit "?") in
    adr ← toFloat (cells !! 9%nat);
    hs_pct ← toFloat (cells !! 10%nat);
    let kast_pct := or_string (cells !! 11%nat) (lit "?") in
    fk ← toInt (cells !! 12%nat);
    fd ← toInt (cells !! 13%nat);
    mk ← toInt (cells !! 14%nat);
    mret (Some (PlayerRecord.make name agent team tier score kills deaths assists
                  plus_minus kd_ratio dda adr hs_pct kast_pct fk fd mk)).

(** [array.filter(p => p !== null)]. *)
Definition filter_non_null (array : list (option PlayerRecord.t))
  : list PlayerRecord.t :=
  omap id array.

(** [rows.map(...).filter(p => p !== null)]. *)
Definition players_of (rows : list Row) : completion (list PlayerRecord.t) :=
  mapped ← array_map row_callback 0 rows;
  mret (filter_non_null mapped).

(** [parseInt(element?.textContent.trim()) || 0], without a radix. *)
Definition score_of (value : option jsstring) : Number :=
  or_zero (parseInt (ToString (trim <$> value)) 0).

(** [players.find(p => p.name === targetRiotID)?.team || "Unknown"]. *)
Definition user_team_of (players : list PlayerRecord.t)
    (targetRiotID : jsstring) : jsstring :=
  let player :=
    find (fun p => bool_decide (PlayerRecord.name p = targetRiotID)) players in
  or_string (PlayerRecord.team <$> player) (lit "Unknown").

Definition won_of (user_team : jsstring) (redScore blueScore : Number) : bool :=
  if bool_decide (user_team = lit "Red") then number_gt redScore blueScore
  else if bool_decide (user_team = lit "Blue") then number_gt blueScore redScore
  else false.

(** The function given to [page.evaluate]. *)
Definition evaluate (document : Document) (targetRiotID : jsstring)
  : completion MatchResult.t :=
  let labels := trim <$> header_labels document in
  let mode := or_string (labels !! 0%nat) [] in
  let mapText := mapText_of document in
  let map := map_of mapText in
  let rows := st_content_items document in
  players ← players_of rows;
  let redScore := score_of (team_1_value document) in
  let blueScore := score_of (team_2_value document) in
  let round_count := number_add redScore blueScore in
  let user_team := user_team_of players targetRiotID in
  let won := won_of user_team redScore blueScore in
  mret (MatchResult.make map mode redScore blueScore round_count won players).

(** [puppeteer/scrape_tracker.js] fixes the target in the function itself. *)
Definition TARGET_RIOT_ID : jsstring :=
  [46888; 47476; 55120; 51620; 48072; 47476; 44536; 35; 44200; 50872; 48164].

Definition evaluate_static (document : Document) : completion MatchResult.t :=
  evaluate document TARGET_RIOT_ID.

(** ** Specification vocabulary *)

(** The rows that pass the validity check, each with its index in [rows];
    [index] is the index of the head of [rows]. *)
Fixpoint survivors (index : nat) (rows : list Row) : list (nat * Row) :=
  match rows with
  | [] => []
  | row :: rest =>
      if rejected row then survivors (S index) rest
      else (index, row) :: survivors (S index) rest
  end.

Definition count_rejected (rows : list Row) : nat :=
  length (List.filter rejected rows).

(** A row with all fifteen stat cells. *)
Definition complete (row : Row) : Prop := (15 <= length (item_values row))%nat.

(** The trimmed text of an element that may be missing. *)
Definition trimmed_text (element : option jsstring) : jsstring :=
  match element with
  | Some s => trim s
  | None => []
  end.

(** The score of [team] is strictly above the score of the other team. *)
Definition beats (team : jsstring) (team1_score team2_score : Number) : Prop :=
  (team = lit "Red" /\ number_gt team1_score team2_score = true) \/
  (team = lit "Blue" /\ number_gt team2_score team1_score = true).

(** As the specification words the team split: teams go by position among the
    surviving records, the first five being Red. *)
Definition team_by_surviving_position (rows : list Row) : Prop :=
  forall players k p,
    players_of rows = Normal players ->
    players !! k = Some p ->
    PlayerRecord.team p = if (k <? 5)%nat then lit "Red" else lit "Blue".

(** As the specification words the outcome: [won] holds exactly when some
    record with the target's name is on the team with the higher score. *)
Definition won_iff_some_match (document : Document) (targetRiotID : jsstring)
  : Prop :=
  forall r,
    evaluate document targetRiotID = Normal r ->
    MatchResult.won r = true <->
    exists p,
      p ∈ MatchResult.players r /\
      PlayerRecord.name p = targetRiotID /\
      beats (PlayerRecord.team p)
        (MatchResult.team1_score r) (MatchResult.team2_score r).

(** As the specification words the round count: the three Numbers of the
    result stand for integers, and the count is the sum of the two scores. *)
Definition round_count_exact (document : Document) (targetRiotID : jsstring)
  : Prop :=
  forall r,
    evaluate document targetRiotID = Normal r ->
    exists team1 team2,
      integer_value (MatchResult.team1_score r) = Some team1 /\
      integer_value (MatchResult.team2_score r) = Some team2 /\
      integer_value (MatchResult.round_count r) = Some (team1 + team2)%Z.

(** The seven integer stats of a record, with the index of their cell. *)
Definition int_stats (p : PlayerRecord.t) : list (nat * Number) :=
  [ (2, PlayerRecord.score p); (3, PlayerRecord.kills p);
    (4, PlayerRecord.deaths p); (5, PlayerRecord.assists p);
    (12, PlayerRecord.fk p); (13, PlayerRecord.fd p);
    (14, PlayerRecord.mk p) ]%nat.

(** As the specification words the integer stats: none is negative. *)
Definition int_stats_nonnegative (rows : list Row) : Prop :=
  forall players p,
    players_of rows = Normal players ->
    p ∈ players ->
    Forall (fun kv => SFleb zero kv.2 = true) (int_stats p).

(** A Number that is not NaN and whose sign bit is [s]. *)
Definition has_sign (s : bool) (x : Number) : Prop :=
  match x with
  | S754_zero s' => s' = s
  | S754_infinity s' => s' = s
  | S754_finite s' _ _ => s' = s
  | S754_nan => False
  end.

(** The integer that [parseInt] reads in a text, 0 when it reads none. *)
Definition integer_read (string : jsstring) (radix : N) : Z :=
  match read_integer string radix with
  | Some (negative, mathInt) => cond_Zopp negative (Z.of_N mathInt)
  | None => 0%Z
  end.

(** The integer read in a cell once '+', ',' and '%' are removed. *)
Definition cell_integer (cell : jsstring) : Z :=
  integer_read (replace_plus_comma_percent cell) 10.

(** What [toInt] hands to [|| 0] for the text of a cell. *)
Definition parsed_cell (cell : jsstring) : Number :=
  parseInt (replace_plus_comma_percent cell) 10.

(** The cell's text, once '+', ',' and '%' are removed and leading white space
    is skipped, starts with '-'. *)
Definition reads_minus (cell : jsstring) : bool :=
  startsWith (trimStart (replace_plus_comma_percent cell)) 45.

(** Neither the first nor the last code unit of [s] is white space. *)
Definition no_outer_space (s : jsstring) : Prop :=
  (forall c, list.head s = Some c -> is_white_space c = false) /\
  (forall c, list.last s = Some c -> is_white_space c = false).

(** The character of a digit: '0' to '9', then 'a' to 'z'. *)
Definition digit_char (d : N) : N := if d <? 10 then 48 + d else 87 + d.

(** The three stats kept as text, with the index of their cell. *)
Definition text_stats (p : PlayerRecord.t) : list (nat * jsstring) :=
  [ (6, PlayerRecord.plus_minus p); (8, PlayerRecord.dda p);
    (11, PlayerRecord.kast_pct p) ]%nat.

(** The three ratios of a record, with the index of their cell. *)
Definition float_stats (p : PlayerRecord.t) : list (nat * Number) :=
  [ (7, PlayerRecord.kd_ratio p); (9, PlayerRecord.adr p);
    (10, PlayerRecord.hs_pct p) ]%nat.

(** The same row and the same document with the white space around every
    text removed beforehand, the rank label apart. *)
Definition trim_row (row : Row) : Row :=
  {| username := trim <$> username row;
     discriminator := trim <$> discriminator row;
     agentImg_alt := trim <$> agentImg_alt row;
     rankImg_alt := rankImg_alt row;
     item_values := trim <$> item_values row |}.

Definition trim_document (document : Document) : Document :=
  {| header_labels := trim <$> header_labels document;
     header_values := trim <$> header_values document;
     st_content_items := trim_row <$> st_content_items document;
     team_1_value := trim <$> team_1_value document;
     team_2_value := trim <$> team_2_value document |}.

(** The records of team Red. *)
Definition red_records (players : list PlayerRecord.t) : list PlayerRecord.t :=
  List.filter (fun p => bool_decide (PlayerRecord.team p = lit "Red")) players.

(** ** Sample rows *)

Definition stat_cells : list jsstring :=
  [ lit "1"; lit "Sample"; lit "250"; lit "20"; lit "15"; lit "5"; lit "+5";
    lit "1.3"; lit "12"; lit "150.5"; lit "25%"; lit "75%"; lit "3"; lit "2";
    lit "1" ].

Definition sample_row (n t : string) : Row :=
  {| username := Some (lit n);
     discriminator := Some (lit t);
     agentImg_alt := Some (lit "Jett");
     rankImg_alt := Some (lit "Gold 2");
     item_values := stat_cells |}.

(** A row without a [.trn-ign__username] element. *)
Definition nameless_row : Row :=
  {| username := None;
     discriminator := Some (lit "#0000");
     agentImg_alt := None;
     rankImg_alt := None;
     item_values := stat_cells |}.

(** A row whose score cell reads "-5". *)
Definition negative_score_row : Row :=
  {| username := Some (lit "Foo");
     discriminator := Some (lit "#Bar");
     agentImg_alt := Some (lit "Jett");
     rankImg_alt := Some (lit "Gold 2");
     item_values := <[2%nat := lit "-5"]> stat_cells |}.

(** A named row that has no [.st-content__item-value] cell. *)
Definition cell_less_row : Row :=
  {| username := Some (lit "Foo");
     discriminator := Some (lit "#Bar");
     agentImg_alt := Some (lit "Jett");
     rankImg_alt := Some (lit "Gold 2");
     item_values := [] |}.

(** Six rows, the first one without a name. *)
Definition rows_first_rejected : list Row :=
  [ nameless_row; sample_row "A" "1"; sample_row "B" "2"; sample_row "C" "3";
    sample_row "D" "4"; sample_row "E" "5" ].

(** A 7-13 match where the rows at index 0 and 5 carry the same identity. *)
Definition document_twice_listed : Document :=
  {| header_labels := [lit "Competitive"];
     header_values := [lit "Ascent"; lit "7"; lit "13"];
     st_content_items :=
       [ sample_row "X" "1"; sample_row "B" "2"; sample_row "C" "3";
         sample_row "D" "4"; sample_row "E" "5"; sample_row "X" "1" ];
     team_1_value := Some (lit "7");
     team_2_value := Some (lit "13") |}.

(** A 13-11 match on Ascent with ten rows; "Nova#KR1" is at index 2. *)
Definition document_ascent : Document :=
  {| header_labels := [lit " Competitive "];
     header_values := [lit " Ascent "; lit "13"; lit "11"];
     st_content_items :=
       [ sample_row "A" "1"; sample_row "B" "2"; sample_row "Nova" "KR1";
         sample_row "D" "4"; sample_row "E" "5"; sample_row "F" "6";
         sample_row "G" "7"; sample_row "H" "8"; sample_row "I" "9";
         sample_row "J" "10" ];
     team_1_value := Some (lit "13");
     team_2_value := Some (lit "11") |}.

(** A document whose only row is [cell_less_row]. *)
Definition document_cell_less : Document :=
  {| header_labels := [lit "Competitive"];
     header_values := [lit "Ascent"; lit "13"; lit "11"];
     st_content_items := [cell_less_row];
     team_1_value := Some (lit "13");
     team_2_value := Some (lit "11") |}.

(** A row whose K/D cell reads "N/A" and whose ADR cell reads "-0.0". *)
Definition zero_ratio_row : Row :=
  {| username := Some (lit "Foo");
     discriminator := Some (lit "Bar");
     agentImg_alt := None;
     rankImg_alt := None;
     item_values := <[7%nat := lit "N/A"]> (<[9%nat := lit "-0.0"]> stat_cells) |}.

(** A document whose header scores read 2^53 and 1. *)
Definition document_large_score : Document :=
  {| header_labels := [lit "Competitive"];
     header_values := [lit "Ascent"];
     st_content_items := [sample_row "A" "1"];
     team_1_value := Some (lit "9007199254740992");
     team_2_value := Some (lit "1") |}.

(** A document without score elements. *)
Definition document_scoreless : Document :=
  {| header_labels := [];
     header_values := [];
     st_content_items := [sample_row "A" "1"];
     team_1_value := None;
     team_2_value := None |}.

(** ** The model on concrete inputs *)

Example parseInt_skips_space_reads_sign :
  parseInt (lit "  -12abc") 10 = round_integer (-12).
Proof. reflexivity. Qed.

Example parseInt_hex_without_radix : parseInt (lit "0x1F") 0 = round_integer 31.
Proof. reflexivity. Qed.

Example parseInt_no_hex_with_radix_10 : parseInt (lit "0x1F") 10 = zero.
Proof. reflexivity. Qed.

Example parseInt_undefined : parseInt (lit "undefined") 0 = NaN.
Proof. reflexivity. Qed.

Example parseInt_minus_zero : parseInt (lit "-0") 10 = S754_zero true.
Proof. reflexivity. Qed.

(** Above 2^53 the integer read is rounded, and 10^309 is infinite. *)
Example parseInt_rounds :
  parseInt (lit "9007199254740993") 10 = round_integer 9007199254740992.
Proof. reflexivity. Qed.

Example parseInt_overflows :
  parseInt (lit "1" ++ repeat 48 309) 10 = S754_infinity false.
Proof. by vm_compute. Qed.

Example decimal_literal_exponent :
  decimal_literal (lit "1.25e2x") = DecimalLiteral false 125 0.
Proof. reflexivity. Qed.

Example decimal_literal_leading_dot :
  decimal_literal (lit "-.5") = DecimalLiteral true 5 (-1).
Proof. reflexivity. Qed.

Example decimal_literal_lone_dot : decimal_literal (lit ".") = NoLiteral.
Proof. reflexivity. Qed.

Example decimal_literal_dangling_exponent :
  decimal_literal (lit "1.e") = DecimalLiteral false 1 0.
Proof. reflexivity. Qed.

Example decimal_literal_infinity :
  decimal_literal (lit "-Infinityx") = InfinityLiteral true.
Proof. reflexivity. Qed.

Example parseFloat_not_available : parseFloat (lit "N/A") = NaN.
Proof. reflexivity. Qed.

Example parseFloat_integer : parseFloat (lit "12") = round_integer 12.
Proof. reflexivity. Qed.

(** 1.3 is the double 5854679515581645 * 2^-52, and 1.30 is the same. *)
Example parseFloat_rounds :
  parseFloat (lit "1.3") = S754_finite false 5854679515581645 (-52) /\
  parseFloat (lit "1.30") = S754_finite false 5854679515581645 (-52).
Proof. by vm_compute. Qed.

Example parseFloat_overflows : parseFloat (lit "1e400") = S754_infinity false.
Proof. by vm_compute. Qed.

Example parseFloat_underflows : parseFloat (lit "-1e-400") = S754_zero true.
Proof. by vm_compute. Qed.

Example toFloat_underflows : toFloat (Some (lit "-1e-400")) = Normal zero.
Proof. by vm_compute. Qed.

Example trim_both_ends : trim (lit "  ab c  ") = lit "ab c".
Proof. reflexivity. Qed.

Example number_add_rounds :
  number_add (round_integer 9007199254740992) (round_integer 1)
  = round_integer 9007199254740992.
Proof. reflexivity. Qed.

Example number_add_infinities :
  number_add (S754_infinity false) (S754_infinity true) = NaN.
Proof. reflexivity. Qed.

(** Ten rows, 13-11 on Ascent, "Nova#KR1" in the third row. *)
Example evaluate_ascent :
  (fun r => (MatchResult.map r, MatchResult.mode r, MatchResult.team1_score r,
             MatchResult.team2_score r, MatchResult.round_count r,
             MatchResult.won r, length (MatchResult.players r)))
    <$> (match evaluate document_ascent (lit "Nova#KR1") with
         | Normal r => Some r
         | Throw => None
         end)
  = Some (lit "Ascent", lit "Competitive", round_integer 13, round_integer 11,
          round_integer 24, true, 10%nat).
Proof. reflexivity. Qed.

(** The script with the fixed target finds no such player there. *)
Example evaluate_static_ascent :
  MatchResult.won
    <$> (match evaluate_static document_ascent with
         | Normal r => Some r
         | Throw => None
         end)
  = Some false.
Proof. reflexivity. Qed.

(** A row with a name and no stat cell stops the extraction. *)
Example evaluate_cell_less :
  evaluate document_cell_less (lit "Foo#Bar") = Throw.
Proof. reflexivity. Qed.

(** ** The completion monad *)

Lemma bind_Normal {A B} (m : completion A) (f : A -> completion B) (b : B) :
  m ≫= f = Normal b <-> exists a, m = Normal a /\ f a = Normal b.
Proof.
  destruct m as [a|]; cbn.
  - split; [eauto | intros (a' & [= <-] & ?); done].
  - split; [done | intros (a' & ? & _); done].
Qed.

Lemma bind_Throw {A B} (m : completion A) (f : A -> completion B) :
  m ≫= f = Throw <-> m = Throw \/ exists a, m = Normal a /\ f a = Throw.
Proof.
  destruct m as [a|]; cbn.
  - split; [eauto | intros [? | (a' & [= <-] & ?)]; done].
  - split; [auto | done].
Qed.

(** Inverts a hypothesis [m ≫= f = Normal b] into its two steps. *)
Ltac bind_inv H :=
  let a := fresh "a" in
  let Ha := fresh "Ha" in
  apply bind_Normal in H; destruct H as (a & Ha & H).

(** ** Signs and comparisons of Numbers *)

Lemma shr_1_nonneg (mrs : shr_record) :
  (0 <= shr_m mrs)%Z -> (0 <= shr_m (shr_1 mrs))%Z.
Proof.
  destruct mrs as [m r t]. cbn. intros Hm.
  destruct m as [|[p|p|]|p]; cbn; lia.
Qed.

Lemma iter_pos_shr_1_nonneg (n : positive) (mrs : shr_record) :
  (0 <= shr_m mrs)%Z -> (0 <= shr_m (SpecFloat.iter_pos shr_1 n mrs))%Z.
Proof.
  revert mrs. induction n as [n IH|n IH|]; intros mrs Hm; cbn.
  - by apply IH, IH, shr_1_nonneg.
  - by apply IH, IH.
  - by apply shr_1_nonneg.
Qed.

Lemma shr_fexp_nonneg (m e : Z) (l : location) :
  (0 <= m)%Z -> (0 <= shr_m (shr_fexp 53 1024 m e l).1)%Z.
Proof.
  intros Hm. unfold shr_fexp, shr.
  assert (0 <= shr_m (shr_record_of_loc m l))%Z as H0.
  { by destruct l as [|[]]. }
  destruct (fexp 53 1024 (Zdigits2 m + e) - e)%Z; cbn; [done| |done].
  by apply iter_pos_shr_1_nonneg.
Qed.

(** Rounding a mantissa that is not negative gives a Number of the sign asked
    for, never NaN. *)
Lemma binary_round_aux_sign (sx : bool) (mx ex : Z) (lx : location) :
  (0 <= mx)%Z -> has_sign sx (binary_round_aux 53 1024 sx mx ex lx).
Proof.
  intros Hm. unfold binary_round_aux.
  pose proof (shr_fexp_nonneg mx ex lx Hm) as H1.
  destruct (shr_fexp 53 1024 mx ex lx) as [mrs' e']. cbn [fst] in H1.
  assert (0 <= round_nearest_even (shr_m mrs') (loc_of_shr_record mrs'))%Z as H2.
  { unfold round_nearest_even.
    destruct (loc_of_shr_record mrs') as [|[]]; [done| |done|lia].
    destruct (Z.even (shr_m mrs')); lia. }
  pose proof (shr_fexp_nonneg _ e' loc_Exact H2) as H3.
  destruct (shr_fexp 53 1024 _ e' loc_Exact) as [mrs'' e'']. cbn [fst] in H3.
  destruct (shr_m mrs'') as [|m|m]; cbn; [done| |lia].
  by destruct (e'' <=? 1024 - 53)%Z.
Qed.

Lemma binary_round_sign (sx : bool) (mx : positive) (ex : Z) :
  has_sign sx (binary_round 53 1024 sx mx ex).
Proof.
  unfold binary_round. destruct (shl_align _ _ _) as [mz ez].
  by apply binary_round_aux_sign.
Qed.

Lemma binary_normalize_sign (m e : Z) :
  (0 <= m)%Z -> has_sign false (binary_normalize 53 1024 m e false).
Proof.
  intros Hm. destruct m as [|m|m]; cbn; [done| |lia].
  apply binary_round_sign.
Qed.

Lemma round_decimal_sign (negative : bool) (mantissa : positive) (exponent : Z) :
  has_sign negative (round_decimal negative mantissa exponent).
Proof.
  unfold round_decimal. destruct exponent as [|k|k];
    [apply binary_round_sign..|].
  unfold SFdiv_core_binary.
  set (s := (0 - 0 - _)%Z). set (m' := match s with Z0 => _ | _ => _ end).
  assert (0 <= m')%Z as Hm'.
  { unfold m'. destruct s; [lia | | lia]. apply Z.shiftl_nonneg. lia. }
  pose proof (Z_div_mod m' (Z.pos (10 ^ k)) ltac:(lia)) as Hdiv.
  destruct (Z.div_eucl m' (Z.pos (10 ^ k))) as [q r].
  apply binary_round_aux_sign. nia.
Qed.

Lemma has_sign_leb (x : Number) : has_sign false x -> SFleb zero x = true.
Proof. by destruct x as [[]|[]| |[] m e]. Qed.

Lemma has_sign_ltb (x : Number) : has_sign false x -> SFltb x zero = false.
Proof. by destruct x as [[]|[]| |[] m e]. Qed.

(** A Number below zero has its sign bit set. *)
Lemma ltb_zero_sign (x : Number) : SFltb x zero = true -> has_sign true x.
Proof. by destruct x as [[]|[]| |[] m e]. Qed.

Lemma or_zero_sign (s : bool) (x : Number) :
  x = NaN \/ has_sign s x -> has_sign false (or_zero x) \/ has_sign s (or_zero x).
Proof. intros [->|H]; [by left|]. destruct x; cbn; auto. Qed.

Lemma SFcompare_refl (x : Number) :
  SFcompare x x = Some Eq \/ SFcompare x x = None.
Proof.
  destruct x as [s|[]| |[] m e]; cbn; auto;
    rewrite Z.compare_refl; left; f_equal;
    change (Pos.compare_cont Eq m m) with (m ?= m)%positive;
    by rewrite Pos.compare_refl.
Qed.

(** No Number is above itself. *)
Lemma number_gt_irrefl (x : Number) : number_gt x x = false.
Proof.
  unfold number_gt, SFltb. by destruct (SFcompare_refl x) as [->| ->].
Qed.

Lemma SFcompare_antisym (x y : Number) :
  SFcompare y x = CompOpp <$> SFcompare x y.
Proof.
  destruct x as [sx|sx| |sx mx ex], y as [sy|sy| |sy my ey]; cbn;
    try done; try (by destruct sx); try (by destruct sy);
    try (by destruct sx, sy).
  rewrite (Z.compare_antisym ex ey).
  change (Pos.compare_cont Eq my mx) with (my ?= mx)%positive.
  change (Pos.compare_cont Eq mx my) with (mx ?= my)%positive.
  rewrite (Pos.compare_antisym mx my).
  destruct sx, sy; cbn; try done;
    destruct (ex ?= ey)%Z; cbn; try done;
    by destruct (mx ?= my)%positive.
Qed.

(** Two Numbers are not each above the other. *)
Lemma number_gt_asym (x y : Number) :
  number_gt x y = true -> number_gt y x = false.
Proof.
  unfold number_gt, SFltb. rewrite (SFcompare_antisym y x).
  by destruct (SFcompare y x) as [[]|].
Qed.

(** The sum of two Numbers that are not negative is not negative. *)
Lemma number_add_sign (x y : Number) :
  has_sign false x -> has_sign false y -> has_sign false (number_add x y).
Proof.
  unfold number_add.
  destruct x as [sx|sx| |sx mx ex], y as [sy|sy| |sy my ey]; cbn;
    try done; try (by intros -> ->).
  intros -> ->. cbn [cond_Zopp]. apply binary_normalize_sign. lia.
Qed.

(** ** Integers that a Number holds exactly *)

Section Exactness.

Local Open Scope Z_scope.

Lemma digits2_pos_log2 (m : positive) :
  Zpos (digits2_pos m) = Z.log2 (Zpos m) + 1.
Proof.
  assert (forall p, digits2_pos p = Pos.size p) as Hsize.
  { induction p as [p IH|p IH|]; cbn; by rewrite ?IH. }
  rewrite Hsize. destruct m as [p|p|]; cbn; lia.
Qed.

Lemma Zpos_iter_xO (m d : positive) :
  Zpos (Pos.iter xO m d) = Zpos m * 2 ^ Zpos d.
Proof.
  induction d as [|d IH] using Pos.peano_ind.
  - cbn. lia.
  - rewrite Pos.iter_succ, Pos2Z.inj_xO, IH, Pos2Z.inj_succ, Z.pow_succ_r; lia.
Qed.

Lemma iter_pos_iter {A} (f : A -> A) (n : positive) (x : A) :
  SpecFloat.iter_pos f n x = Pos.iter f x n.
Proof.
  revert x. induction n as [n IH|n IH|]; intros x; cbn.
  - rewrite !IH. by rewrite !Pos.iter_swap.
  - by rewrite !IH.
  - done.
Qed.

Lemma iter_shr_1_exact (n c : positive) :
  Pos.iter shr_1 (Build_shr_record (Zpos (Pos.iter xO c n)) false false) n
  = Build_shr_record (Zpos c) false false.
Proof.
  revert c. induction n as [|n IH] using Pos.peano_ind; intros c.
  - done.
  - rewrite Pos.iter_succ.
    replace (Pos.iter xO c (Pos.succ n)) with (Pos.iter xO (xO c) n)
      by (by rewrite Pos.iter_swap, Pos.iter_succ).
    by rewrite IH.
Qed.

(** A mantissa of 53 digits with an exponent in range is kept as it is. *)
Lemma binary_round_aux_canonical (s : bool) (c : positive) (e : Z) :
  Zpos (digits2_pos c) = 53 -> -1074 <= e <= 971 ->
  binary_round_aux 53 1024 s (Zpos c) e loc_Exact = S754_finite s c e.
Proof.
  intros Hc He. unfold binary_round_aux, shr_fexp.
  cbn [Zdigits2 shr_record_of_loc]. rewrite Hc.
  replace (fexp 53 1024 (53 + e) - e) with 0 by (unfold fexp, emin; lia).
  cbn [shr shr_m loc_of_shr_record round_nearest_even Zdigits2 shr_record_of_loc].
  rewrite Hc.
  replace (fexp 53 1024 (53 + e) - e) with 0 by (unfold fexp, emin; lia).
  cbn [shr shr_m].
  replace (e <=? 1024 - 53) with true by (symmetry; apply Z.leb_le; lia).
  done.
Qed.

(** A mantissa of 53 digits followed by [n] zero bits loses them exactly. *)
Lemma binary_round_aux_shifted (s : bool) (c n : positive) (e : Z) :
  Zpos (digits2_pos c) = 53 -> -1074 <= e <= 971 ->
  binary_round_aux 53 1024 s (Zpos (Pos.iter xO c n)) (e - Zpos n) loc_Exact
  = S754_finite s c e.
Proof.
  intros Hc He. unfold binary_round_aux at 1. unfold shr_fexp at 1.
  cbn [Zdigits2 shr_record_of_loc].
  assert (Zpos (digits2_pos (Pos.iter xO c n)) = 53 + Zpos n) as ->.
  { rewrite digits2_pos_log2, Zpos_iter_xO.
    rewrite Z.log2_mul_pow2 by lia. rewrite digits2_pos_log2 in Hc. lia. }
  replace (fexp 53 1024 (53 + Zpos n + (e - Zpos n)) - (e - Zpos n))
    with (Zpos n) by (unfold fexp, emin; lia).
  cbn [shr]. rewrite iter_pos_iter, iter_shr_1_exact.
  replace (e - Zpos n + Zpos n) with e by lia.
  cbn [shr_m loc_of_shr_record round_nearest_even].
  pose proof (binary_round_aux_canonical s c e Hc He) as H.
  unfold binary_round_aux in H. unfold shr_fexp at 1 in H.
  cbn [Zdigits2 shr_record_of_loc] in H. rewrite Hc in H.
  replace (fexp 53 1024 (53 + e) - e) with 0 in H by (unfold fexp, emin; lia).
  cbn [shr shr_m loc_of_shr_record round_nearest_even] in H.
  exact H.
Qed.

(** Rounding a mantissa and an exponent that write a 53-digit mantissa [c]
    with the exponent [e] gives exactly that. *)
Lemma binary_round_exact (s : bool) (M c : positive) (E e : Z) :
  Zpos (digits2_pos c) = 53 -> -1074 <= e <= 971 ->
  (e <= E -> Zpos M * 2 ^ (E - e) = Zpos c) ->
  (E < e -> Zpos M = Zpos c * 2 ^ (e - E)) ->
  binary_round 53 1024 s M E = S754_finite s c e.
Proof.
  intros Hc He Hle Hlt. unfold binary_round.
  assert (fexp 53 1024 (Zpos (digits2_pos M) + E) = e) as ->.
  { rewrite digits2_pos_log2 in *. unfold fexp, emin.
    destruct (Z.le_gt_cases e E) as [H|H].
    - specialize (Hle H). rewrite <- Hle in Hc.
      rewrite Z.log2_mul_pow2 in Hc by lia. lia.
    - specialize (Hlt H). rewrite Hlt.
      rewrite Z.log2_mul_pow2 by lia. lia. }
  unfold shl_align.
  destruct (e - E) as [|n|n] eqn:Hd.
  - assert (E = e) as -> by lia. rewrite Z.sub_diag, Z.mul_1_r in Hle.
    injection (Hle ltac:(lia)) as ->. by apply binary_round_aux_canonical.
  - assert (E = e - Zpos n) as -> by lia.
    specialize (Hlt ltac:(lia)).
    replace (e - (e - Zpos n)) with (Zpos n) in Hlt by lia.
    rewrite <- Zpos_iter_xO in Hlt. injection Hlt as ->.
    by apply binary_round_aux_shifted.
  - specialize (Hle ltac:(lia)).
    replace (E - e) with (Zpos n) in Hle by lia.
    rewrite <- Zpos_iter_xO in Hle. injection Hle as ->.
    by apply binary_round_aux_canonical.
Qed.

Lemma pow2_pos (k : Z) : 0 <= k -> 0 < 2 ^ k.
Proof. intros. by apply Z.pow_pos_nonneg. Qed.

(** Rounding a mantissa and an exponent that write an integer below 2^53
    gives that integer. *)
Lemma binary_round_integer (s : bool) (M : positive) (E v : Z) :
  0 < v < 2 ^ 53 ->
  (0 <= E -> v = Zpos M * 2 ^ E) ->
  (E < 0 -> Zpos M = v * 2 ^ (- E)) ->
  integer_value (binary_round 53 1024 s M E) = Some (cond_Zopp s v).
Proof.
  intros Hv Hpos Hneg.
  set (k := 53 - (Z.log2 v + 1)).
  assert (0 <= Z.log2 v < 53) as Hlog.
  { split; [apply Z.log2_nonneg|]. apply Z.log2_lt_pow2; lia. }
  assert (0 <= k <= 52) as Hk by (unfold k; lia).
  pose proof (pow2_pos k ltac:(lia)) as Hpk.
  set (c := Z.to_pos (v * 2 ^ k)).
  assert (Zpos c = v * 2 ^ k) as Hc by (unfold c; rewrite Z2Pos.id; nia).
  assert (Zpos (digits2_pos c) = 53) as Hdigits.
  { rewrite digits2_pos_log2, Hc, Z.log2_mul_pow2 by lia. unfold k. lia. }
  rewrite (binary_round_exact s M c E (- k) Hdigits ltac:(lia)).
  - unfold integer_value. destruct (Z.leb_spec 0 (- k)) as [H0|H0].
    + assert (k = 0) as Hk0 by lia. f_equal. f_equal.
      rewrite Hc, Hk0. cbn. lia.
    + rewrite Z.opp_involutive, Hc, Z.mod_mul by lia. cbn [Z.eqb].
      by rewrite Z.div_mul by lia.
  - intros HE. rewrite Hc. replace (E - - k) with (E + k) by lia.
    destruct (Z.le_gt_cases 0 E) as [H0|H0].
    + rewrite (Hpos H0), Z.pow_add_r by lia. lia.
    + rewrite (Hneg H0). rewrite <- Z.mul_assoc, <- Z.pow_add_r by lia.
      f_equal. f_equal. lia.
  - intros HE. rewrite Hc, (Hneg ltac:(lia)).
    rewrite <- Z.mul_assoc, <- Z.pow_add_r by lia. f_equal. f_equal. lia.
Qed.

(** Below 2^53 in magnitude the Number for an integer is that integer. *)
Lemma round_integer_exact (z : Z) :
  Z.abs z < 2 ^ 53 -> integer_value (round_integer z) = Some z.
Proof.
  intros Hz. destruct z as [|p|p]; [done| |]; cbn [round_integer binary_normalize].
  - apply (binary_round_integer false p 0 (Zpos p)); lia.
  - apply (binary_round_integer true p 0 (Zpos p)); lia.
Qed.

Lemma integer_value_finite (s : bool) (m : positive) (e a : Z) :
  integer_value (S754_finite s m e) = Some a ->
  exists u,
    a = cond_Zopp s u /\ 0 < u /\
    (0 <= e -> u = Zpos m * 2 ^ e) /\
    (e < 0 -> Zpos m = u * 2 ^ (- e)).
Proof.
  unfold integer_value. destruct (Z.leb_spec 0 e) as [He|He].
  - intros [= <-]. exists (Zpos m * 2 ^ e).
    pose proof (pow2_pos e He).
    split; [done|]. split; [nia|]. split; [done | lia].
  - pose proof (pow2_pos (- e) ltac:(lia)) as Hp.
    destruct (Z.eqb_spec (Zpos m mod 2 ^ (- e)) 0) as [Hmod|]; [|done].
    intros [= <-]. exists (Zpos m / 2 ^ (- e)).
    assert (Zpos m = Zpos m / 2 ^ (- e) * 2 ^ (- e)) as Hm.
    { rewrite (Z.div_mod (Zpos m) (2 ^ (- e))) at 1 by lia. lia. }
    split; [done|]. split; [nia|]. split; [lia | done].
Qed.

Lemma shl_align_value (m : positive) (e e' : Z) :
  e' <= e -> Zpos (shl_align m e e').1 = Zpos m * 2 ^ (e - e').
Proof.
  intros He. unfold shl_align. destruct (e' - e) as [|d|d] eqn:Hd; cbn [fst].
  - replace (e - e') with 0 by lia. lia.
  - lia.
  - rewrite Zpos_iter_xO. f_equal. f_equal. lia.
Qed.

(** The part of a sum that one finite Number brings, on the common exponent. *)
Lemma aligned_value (s : bool) (m : positive) (e ez a : Z) :
  ez <= e ->
  integer_value (S754_finite s m e) = Some a ->
  (0 <= ez -> a = cond_Zopp s (Zpos (shl_align m e ez).1) * 2 ^ ez) /\
  (ez < 0 -> cond_Zopp s (Zpos (shl_align m e ez).1) = a * 2 ^ (- ez)).
Proof.
  intros Hez (u & -> & Hu & Hpos & Hneg)%integer_value_finite.
  rewrite (shl_align_value m e ez Hez).
  assert (forall x y, cond_Zopp s x * y = cond_Zopp s (x * y)) as Hopp
    by (intros; destruct s; cbn; lia).
  rewrite !Hopp. split; intros H0; f_equal.
  - rewrite (Hpos ltac:(lia)), <- Z.mul_assoc, <- Z.pow_add_r by lia.
    by replace (e - ez + ez) with e by lia.
  - destruct (Z.le_gt_cases 0 e) as [He|He].
    + rewrite (Hpos He), <- Z.mul_assoc, <- Z.pow_add_r by lia.
      by replace (e + - ez) with (e - ez) by lia.
    + rewrite (Hneg He), <- Z.mul_assoc, <- Z.pow_add_r by lia.
      by replace (- e + (e - ez)) with (- ez) by lia.
Qed.

(** The sum of two Numbers that stand for integers stands for the sum of the
    integers, when that is below 2^53 in magnitude. *)
Lemma number_add_exact (x y : Number) (a b : Z) :
  integer_value x = Some a ->
  integer_value y = Some b ->
  Z.abs (a + b) < 2 ^ 53 ->
  integer_value (number_add x y) = Some (a + b).
Proof.
  intros Hx Hy Hsum. unfold number_add.
  destruct x as [sx|sx| |sx mx ex], y as [sy|sy| |sy my ey]; try done.
  - injection Hx as <-. injection Hy as <-. by destruct sx, sy.
  - injection Hx as <-. exact Hy.
  - injection Hy as <-. cbn [SFadd]. by rewrite Z.add_0_r.
  - cbn [SFadd]. set (ez := Z.min ex ey).
    destruct (aligned_value sx mx ex ez a ltac:(lia) Hx) as [Ha0 Ha1].
    destruct (aligned_value sy my ey ez b ltac:(lia) Hy) as [Hb0 Hb1].
    set (A := cond_Zopp sx (Zpos (shl_align mx ex ez).1)) in *.
    set (B := cond_Zopp sy (Zpos (shl_align my ey ez).1)) in *.
    assert (0 <= ez -> a + b = (A + B) * 2 ^ ez) as H0.
    { intros H. rewrite (Ha0 H), (Hb0 H). lia. }
    assert (ez < 0 -> A + B = (a + b) * 2 ^ (- ez)) as H1.
    { intros H. rewrite (Ha1 H), (Hb1 H). lia. }
    assert (0 < 2 ^ Z.abs ez) as Hp by (apply pow2_pos; lia).
    destruct (A + B) as [|p|p] eqn:HS; cbn [binary_normalize].
    + cbn. f_equal. destruct (Z.le_gt_cases 0 ez) as [H|H].
      * rewrite (H0 H). lia.
      * specialize (H1 H). rewrite Z.abs_neq in Hp by lia. nia.
    + apply (binary_round_integer false p ez (a + b)).
      * destruct (Z.le_gt_cases 0 ez) as [H|H].
        -- rewrite Z.abs_eq in Hp by lia. specialize (H0 H). nia.
        -- rewrite Z.abs_neq in Hp by lia. specialize (H1 H). nia.
      * done.
      * done.
    + replace (a + b) with (cond_Zopp true (- (a + b))) by (cbn; lia).
      apply (binary_round_integer true p ez (- (a + b))).
      * destruct (Z.le_gt_cases 0 ez) as [H|H].
        -- rewrite Z.abs_eq in Hp by lia. specialize (H0 H). nia.
        -- rewrite Z.abs_neq in Hp by lia. specialize (H1 H). nia.
      * intros H. specialize (H0 H). lia.
      * intros H. specialize (H1 H). lia.
Qed.

(** Replacing NaN and the zeros by 0 keeps the integer. *)
Lemma or_zero_integer_value (x : Number) (a : Z) :
  integer_value x = Some a -> integer_value (or_zero x) = Some a.
Proof. by destruct x. Qed.

End Exactness.

(** ** The cell parsers *)

Lemma toInt_Normal (val : option jsstring) (z : Number) :
  toInt val = Normal z <->
  exists s, val = Some s /\ z = or_zero (parseInt (replace_plus_comma_percent s) 10).
Proof.
  destruct val as [s|]; cbn; split.
  - intros [= <-]. eauto.
  - intros (s' & [= <-] & ->). done.
  - done.
  - intros (s' & ? & _). done.
Qed.

Lemma toFloat_Normal (val : option jsstring) (x : Number) :
  toFloat val = Normal x <->
  exists s, val = Some s /\
    x = or_zero (parseFloat (replace_plus_comma_percent s)).
Proof.
  destruct val as [s|]; cbn; split.
  - intros [= <-]. eauto.
  - intros (s' & [= <-] & ->). done.
  - done.
  - intros (s' & ? & _). done.
Qed.

Lemma toInt_is_Normal (val : option jsstring) :
  is_Some val -> exists z, toInt val = Normal z.
Proof. intros [s ->]. cbn. eauto. Qed.

Lemma toFloat_is_Normal (val : option jsstring) :
  is_Some val -> exists x, toFloat val = Normal x.
Proof. intros [s ->]. cbn. eauto. Qed.

(** ** One row *)

Lemma row_callback_rejected (row : Row) (index : nat) :
  rejected row = true -> row_callback row index = Normal None.
Proof. intros H. unfold row_callback. by rewrite H. Qed.

(** What an emitted record holds. *)
Lemma row_callback_Some (row : Row) (index : nat) (p : PlayerRecord.t) :
  row_callback row index = Normal (Some p) ->
  rejected row = false /\
  PlayerRecord.name p = name_of (rawName_of row) (rawTag_of row) /\
  PlayerRecord.team p = team_of index /\
  toInt (cells_of row !! 2%nat) = Normal (PlayerRecord.score p) /\
  toInt (cells_of row !! 3%nat) = Normal (PlayerRecord.kills p) /\
  toInt (cells_of row !! 4%nat) = Normal (PlayerRecord.deaths p) /\
  toInt (cells_of row !! 5%nat) = Normal (PlayerRecord.assists p) /\
  toInt (cells_of row !! 12%nat) = Normal (PlayerRecord.fk p) /\
  toInt (cells_of row !! 13%nat) = Normal (PlayerRecord.fd p) /\
  toInt (cells_of row !! 14%nat) = Normal (PlayerRecord.mk p).
Proof.
  unfold row_callback. intros H.
  destruct (rejected row) eqn:Hrej; [done|].
  do 10 bind_inv H.
  injection H as <-. cbn. by repeat split.
Qed.

Lemma row_callback_None (row : Row) (index : nat) :
  row_callback row index = Normal None -> rejected row = true.
Proof.
  unfold row_callback. intros H.
  destruct (rejected row); [done|].
  do 10 bind_inv H. done.
Qed.

(** An accepted row with its fifteen cells yields a record. *)
Lemma row_callback_complete (row : Row) (index : nat) :
  rejected row = false -> complete row ->
  exists p, row_callback row index = Normal (Some p).
Proof.
  unfold row_callback, complete. intros -> Hlen.
  set (cells := cells_of row).
  assert (Hc : forall k, (k < 15)%nat -> is_Some (cells !! k)).
  { intros k Hk. apply lookup_lt_is_Some. unfold cells, cells_of.
    rewrite length_fmap. lia. }
  destruct (toInt_is_Normal (cells !! 2%nat)) as [? ->]; [apply Hc; lia|].
  destruct (toInt_is_Normal (cells !! 3%nat)) as [? ->]; [apply Hc; lia|].
  destruct (toInt_is_Normal (cells !! 4%nat)) as [? ->]; [apply Hc; lia|].
  destruct (toInt_is_Normal (cells !! 5%nat)) as [? ->]; [apply Hc; lia|].
  destruct (toFloat_is_Normal (cells !! 7%nat)) as [? ->]; [apply Hc; lia|].
  destruct (toFloat_is_Normal (cells !! 9%nat)) as [? ->]; [apply Hc; lia|].
  destruct (toFloat_is_Normal (cells !! 10%nat)) as [? ->]; [apply Hc; lia|].
  destruct (toInt_is_Normal (cells !! 12%nat)) as [? ->]; [apply Hc; lia|].
  destruct (toInt_is_Normal (cells !! 13%nat)) as [? ->]; [apply Hc; lia|].
  destruct (toInt_is_Normal (cells !! 14%nat)) as [? ->]; [apply Hc; lia|].
  cbn. eauto.
Qed.

(** An accepted row that lacks a stat cell makes the callback throw. *)
Lemma row_callback_incomplete (row : Row) (index : nat) :
  rejected row = false -> ~ complete row -> row_callback row index = Throw.
Proof.
  intros Hrej Hlen.
  destruct (row_callback row index) as [[p|]|] eqn:H; [| |done].
  - apply row_callback_Some in H as (_ & _ & _ & _ & _ & _ & _ & _ & _ & H).
    apply toInt_Normal in H as (s & H & _).
    apply lookup_lt_Some in H. unfold cells_of in H.
    rewrite length_fmap in H. unfold complete in Hlen. lia.
  - apply row_callback_None in H. congruence.
Qed.

(** ** The surviving rows *)

Lemma survivors_length (rows : list Row) (index : nat) :
  (length (survivors index rows) + count_rejected rows = length rows)%nat.
Proof.
  unfold count_rejected. revert index.
  induction rows as [|row rest IH]; intros index; cbn; [done|].
  destruct (rejected row); cbn; rewrite <- (IH (S index)); lia.
Qed.

(** The [k]-th survivor sits at an index [i] of [rows] that has exactly
    [i - k] rejected rows before it. *)
Lemma survivors_lookup (rows : list Row) (index k i : nat) (row : Row) :
  survivors index rows !! k = Some (i, row) ->
  (index <= i)%nat /\
  rows !! (i - index)%nat = Some row /\
  rejected row = false /\
  (k + count_rejected (take (i - index) rows) = i - index)%nat.
Proof.
  unfold count_rejected. revert index k.
  induction rows as [|r rest IH]; intros index k H; cbn in H; [done|].
  destruct (rejected r) eqn:Hr.
  - apply IH in H as (Hle & Hl & Hrej & Hc).
    replace (i - index)%nat with (S (i - S index)) by lia.
    cbn. rewrite Hr. cbn. repeat split; [lia | done | done | lia].
  - destruct k as [|k]; cbn in H.
    + injection H as <- <-. rewrite Nat.sub_diag. cbn. by repeat split.
    + apply IH in H as (Hle & Hl & Hrej & Hc).
      replace (i - index)%nat with (S (i - S index)) by lia.
      cbn. rewrite Hr. repeat split; [lia | done | done | lia].
Qed.

(** Survivors keep the order of the rows. *)
Lemma survivors_increasing (rows : list Row) (index k1 k2 i1 i2 : nat)
    (row1 row2 : Row) :
  (k1 < k2)%nat ->
  survivors index rows !! k1 = Some (i1, row1) ->
  survivors index rows !! k2 = Some (i2, row2) ->
  (i1 < i2)%nat.
Proof.
  revert index k1 k2.
  induction rows as [|r rest IH]; intros index k1 k2 Hk H1 H2; cbn in *; [done|].
  destruct (rejected r); [by eapply IH|].
  destruct k2 as [|k2]; [lia|]. cbn in H2.
  destruct k1 as [|k1]; cbn in H1.
  - injection H1 as <- <-. apply survivors_lookup in H2. lia.
  - eapply (IH (S index) k1 k2); [lia | done | done].
Qed.

(** ** The player sequence *)

Lemma array_map_survivors (rows : list Row) (index : nat)
    (mapped : list (option PlayerRecord.t)) :
  array_map row_callback index rows = Normal mapped ->
  Forall2 (fun p ir => row_callback ir.2 ir.1 = Normal (Some p))
    (filter_non_null mapped) (survivors index rows).
Proof.
  revert index mapped.
  induction rows as [|row rest IH]; intros index mapped H; cbn in H.
  - injection H as <-. constructor.
  - bind_inv H. bind_inv H. injection H as <-.
    apply IH in Ha0. cbn.
    destruct a as [p|].
    + pose proof (row_callback_Some _ _ _ Ha) as (-> & _).
      cbn. by constructor.
    + apply row_callback_None in Ha as ->. done.
Qed.

Lemma array_map_length (rows : list Row) (index : nat)
    (mapped : list (option PlayerRecord.t)) :
  array_map row_callback index rows = Normal mapped ->
  length mapped = length rows.
Proof.
  revert index mapped.
  induction rows as [|row rest IH]; intros index mapped H; cbn in H.
  - by injection H as <-.
  - bind_inv H. bind_inv H. injection H as <-. cbn. f_equal. by eapply IH.
Qed.

(** The map succeeds exactly when every accepted row is complete. *)
Lemma array_map_Normal (rows : list Row) (index : nat) :
  (exists mapped, array_map row_callback index rows = Normal mapped) <->
  Forall (fun row => rejected row = false -> complete row) rows.
Proof.
  revert index. induction rows as [|row rest IH]; intros index; cbn.
  - split; [constructor | eauto].
  - split.
    + intros (mapped & H). bind_inv H. bind_inv H. constructor.
      * intros Hrej. destruct (decide (15 <= length (item_values row))%nat) as [|Hn]; [done|].
        rewrite (row_callback_incomplete _ _ Hrej Hn) in Ha. done.
      * apply (IH (S index)). eauto.
    + intros H. inversion_clear H as [|? ? Hrow Hrest].
      apply (IH (S index)) in Hrest as (ys & ->).
      destruct (rejected row) eqn:Hrej.
      * rewrite (row_callback_rejected _ _ Hrej). cbn. eauto.
      * destruct (row_callback_complete row index Hrej (Hrow eq_refl)) as (p & ->).
        cbn. eauto.
Qed.

Lemma players_of_Normal (rows : list Row) :
  (exists players, players_of rows = Normal players) <->
  Forall (fun row => rejected row = false -> complete row) rows.
Proof.
  rewrite <- (array_map_Normal rows 0). unfold players_of. split.
  - intros (players & H). bind_inv H. eauto.
  - intros (mapped & ->). cbn. eauto.
Qed.

Lemma rawName_of_trimmed (row : Row) :
  rawName_of row = trimmed_text (username row).
Proof.
  unfold rawName_of, trimmed_text.
  destruct (username row) as [s|]; cbn; [|done]. by destruct (trim s).
Qed.

Lemma rawTag_of_trimmed (row : Row) :
  rawTag_of row = trimmed_text (discriminator row).
Proof.
  unfold rawTag_of, trimmed_text.
  destruct (discriminator row) as [s|]; cbn; [|done]. by destruct (trim s).
Qed.

(** The validity check reads the trimmed texts, before any '#' is removed. *)
Lemma rejected_spec (row : Row) :
  rejected row = true <->
  trimmed_text (username row) = [] \/ trimmed_text (discriminator row) = [].
Proof.
  unfold rejected. rewrite rawName_of_trimmed, rawTag_of_trimmed.
  destruct (trimmed_text (username row)), (trimmed_text (discriminator row));
    cbn; intuition discriminate.
Qed.

Lemma count_rejected_le_length (rows : list Row) :
  (count_rejected rows <= length rows)%nat.
Proof. pose proof (survivors_length rows 0). lia. Qed.

(** Rejections among the first [j] rows: at least those among the first [i],
    and at most [j - i] more. *)
Lemma count_rejected_take (rows : list Row) (i j : nat) :
  (i <= j)%nat ->
  (count_rejected (take i rows) <= count_rejected (take j rows)
   <= count_rejected (take i rows) + (j - i))%nat.
Proof.
  revert i j. induction rows as [|row rest IH]; intros i j Hij.
  - rewrite !take_nil. cbn. lia.
  - destruct i as [|i].
    + pose proof (count_rejected_le_length (take j (row :: rest))) as Hle.
      rewrite length_take in Hle. cbn. lia.
    + destruct j as [|j]; [lia|].
      specialize (IH i j ltac:(lia)). unfold count_rejected in *. cbn.
      destruct (rejected row); cbn; lia.
Qed.

Lemma team_of_cases (index : nat) :
  team_of index = lit "Red" /\ (index < 5)%nat \/
  team_of index = lit "Blue" /\ (5 <= index)%nat.
Proof.
  unfold team_of. destruct (Nat.ltb_spec index 5); [left | right]; done.
Qed.

(** ** Lists *)

(** [find] returns the first element that satisfies the test. *)
Lemma find_first {A} (f : A -> bool) (l : list A) (x : A) :
  find f l = Some x <->
  exists k,
    l !! k = Some x /\ f x = true /\
    forall j y, (j < k)%nat -> l !! j = Some y -> f y = false.
Proof.
  induction l as [|a l IH]; cbn.
  - split; [done | by intros (k & ? & _)].
  - destruct (f a) eqn:Ha; split.
    + intros [= <-]. exists 0%nat. repeat split; [done|]. intros; lia.
    + intros ([|k] & Hk & Hx & Hfirst); cbn in Hk.
      * congruence.
      * specialize (Hfirst 0%nat a ltac:(lia) eq_refl). congruence.
    + intros (k & Hk & Hx & Hfirst)%IH. exists (S k). repeat split; [done..|].
      intros [|j] y Hj Hy; cbn in Hy; [congruence|].
      apply (Hfirst j); [lia | done].
    + intros ([|k] & Hk & Hx & Hfirst); cbn in Hk; [congruence|].
      apply IH. exists k. repeat split; [done..|].
      intros j y Hj Hy. apply (Hfirst (S j)); [lia | done].
Qed.

Lemma find_nothing {A} (f : A -> bool) (l : list A) :
  find f l = None <-> forall x, x ∈ l -> f x = false.
Proof.
  induction l as [|a l IH]; cbn.
  - split; [by intros _ x ?%elem_of_nil | done].
  - destruct (f a) eqn:Ha; split.
    + done.
    + intros H. specialize (H a ltac:(left)). congruence.
    + intros H x [->|Hx]%elem_of_cons; [done | by apply IH].
    + intros H. apply IH. intros x Hx. apply H. by right.
Qed.

(** ** A materialised player list *)

Section Materialised.

Context (rows : list Row) (players : list PlayerRecord.t).
Hypothesis Hplayers : players_of rows = Normal players.

(** The output holds, in order, the records of the surviving rows. *)
Lemma players_of_survivors :
  Forall2 (fun p ir => row_callback ir.2 ir.1 = Normal (Some p))
    players (survivors 0 rows).
Proof.
  pose proof Hplayers as H. unfold players_of in H.
  bind_inv H. injection H as <-. by apply array_map_survivors.
Qed.

(** The record at position [k] of the output comes from the [k]-th survivor. *)
Lemma players_of_lookup (k : nat) (p : PlayerRecord.t) :
  players !! k = Some p ->
  exists i row,
    survivors 0 rows !! k = Some (i, row) /\
    row_callback row i = Normal (Some p).
Proof.
  intros Hk.
  destruct (Forall2_lookup_l _ _ _ _ _ players_of_survivors Hk)
    as ([i row] & Hs & Hcb).
  eauto.
Qed.

Lemma team_Red_or_Blue (k : nat) (p : PlayerRecord.t) :
  players !! k = Some p ->
  PlayerRecord.team p = lit "Red" \/ PlayerRecord.team p = lit "Blue".
Proof.
  intros Hk.
  destruct (players_of_lookup _ _ Hk) as (i & row & _ & Hcb).
  apply row_callback_Some in Hcb as (_ & _ & -> & _).
  destruct (team_of_cases i) as [[-> _]|[-> _]]; auto.
Qed.

(** The user's team is the team of the first record that carries the target's
    name, and "Unknown" when there is none. *)
Lemma user_team_of_spec (targetRiotID : jsstring) :
  match find (fun p => bool_decide (PlayerRecord.name p = targetRiotID)) players with
  | Some p => user_team_of players targetRiotID = PlayerRecord.team p
  | None => user_team_of players targetRiotID = lit "Unknown"
  end.
Proof.
  unfold user_team_of.
  destruct (find _ players) as [p|] eqn:Hfind; [|done].
  apply find_first in Hfind as (k & Hk & _).
  destruct (team_Red_or_Blue _ _ Hk) as [E|E]; cbn; by rewrite E.
Qed.

(** The user's team beats the other one exactly when the first record with
    the target's name is on the team that does. *)
Lemma user_team_beats (targetRiotID : jsstring) (redScore blueScore : Number) :
  beats (user_team_of players targetRiotID) redScore blueScore <->
  exists k p,
    players !! k = Some p /\
    PlayerRecord.name p = targetRiotID /\
    (forall j q, (j < k)%nat -> players !! j = Some q ->
                 PlayerRecord.name q <> targetRiotID) /\
    beats (PlayerRecord.team p) redScore blueScore.
Proof.
  set (matches := fun p => bool_decide (PlayerRecord.name p = targetRiotID)).
  pose proof (user_team_of_spec targetRiotID) as Hteam. fold matches in Hteam.
  split.
  - destruct (find matches players) as [p|] eqn:Hfind.
    + rewrite Hteam. intros Hbeats.
      apply find_first in Hfind as (k & Hk & Hp & Hfirst).
      exists k, p. repeat split; try done.
      * by apply bool_decide_eq_true in Hp.
      * intros j q Hj Hq. specialize (Hfirst j q Hj Hq).
        by apply bool_decide_eq_false in Hfirst.
    + rewrite Hteam. intros [[? _]|[? _]]; done.
  - intros (k & p & Hk & Hp & Hfirst & Hbeats).
    assert (find matches players = Some p) as Hfind.
    { apply find_first. exists k. repeat split; [done | |].
      - by apply bool_decide_eq_true.
      - intros j q Hj Hq. apply bool_decide_eq_false. by apply (Hfirst j). }
    rewrite Hfind in Hteam. by rewrite Hteam.
Qed.

(** Without a record that carries the target's name the user's team is
    unknown. *)
Lemma user_team_unmatched (targetRiotID : jsstring) :
  (forall p, p ∈ players -> PlayerRecord.name p <> targetRiotID) ->
  user_team_of players targetRiotID = lit "Unknown".
Proof.
  intros Hnone. pose proof (user_team_of_spec targetRiotID) as Hteam.
  assert (find (fun p => bool_decide (PlayerRecord.name p = targetRiotID))
            players = None) as Hfind.
  { apply find_nothing. intros p Hp. apply bool_decide_eq_false. auto. }
  by rewrite Hfind in Hteam.
Qed.

End Materialised.

(** ** Team assignment *)

(** With the first of six rows rejected, the fifth surviving record comes from
    the row at index 5 and is Blue. *)
Lemma team_by_surviving_position_fails :
  ~ team_by_surviving_position rows_first_rejected.
Proof.
  intros H.
  assert (exists players p,
             players_of rows_first_rejected = Normal players /\
             players !! 4%nat = Some p /\
             PlayerRecord.team p = lit "Blue") as (players & p & E1 & E2 & E3).
  { eexists _, _. split; [reflexivity|]. split; reflexivity. }
  specialize (H players 4%nat p E1 E2). rewrite E3 in H. discriminate H.
Qed.

(** C1 (amended): the team of a surviving record is decided by the index [i]
    of its row among all the rows, rejected ones included: Red when [i < 5],
    Blue otherwise. The record's position [k] in the output is [i] minus the
    number of rows rejected before it, so position and index agree on the team
    when no row among the first five is rejected. *)
Theorem team_by_row_index (rows : list Row) (players : list PlayerRecord.t)
    (k : nat) (p : PlayerRecord.t) :
  players_of rows = Normal players ->
  players !! k = Some p ->
  exists i row,
    rows !! i = Some row /\
    rejected row = false /\
    (k + count_rejected (take i rows) = i)%nat /\
    PlayerRecord.team p = (if (i <? 5)%nat then lit "Red" else lit "Blue") /\
    (count_rejected (take 5 rows) = 0%nat ->
     PlayerRecord.team p = if (k <? 5)%nat then lit "Red" else lit "Blue").
Proof.
  intros Hplayers Hk.
  destruct (players_of_lookup _ _ Hplayers _ _ Hk) as (i & row & Hs & Hcb).
  apply survivors_lookup in Hs as (_ & Hrow & Hrej & Hcount).
  rewrite Nat.sub_0_r in Hrow, Hcount.
  apply row_callback_Some in Hcb as (_ & _ & Hteam & _).
  exists i, row. repeat split; try done.
  intros Hfirst. rewrite Hteam. unfold team_of.
  destruct (Nat.ltb_spec i 5) as [Hi|Hi].
  - pose proof (count_rejected_take rows i 5 ltac:(lia)).
    replace k with i by lia. by apply Nat.ltb_lt in Hi as ->.
  - pose proof (count_rejected_take rows 5 i Hi).
    assert (5 <= k)%nat as Hk5 by lia. by apply Nat.ltb_ge in Hk5 as ->.
Qed.

Lemma team_by_row_index_witness :
  exists players p,
    players_of rows_first_rejected = Normal players /\
    players !! 4%nat = Some p /\
    exists i row,
      rows_first_rejected !! i = Some row /\
      rejected row = false /\
      (4 + count_rejected (take i rows_first_rejected) = i)%nat /\
      PlayerRecord.team p = (if (i <? 5)%nat then lit "Red" else lit "Blue") /\
      (count_rejected (take 5 rows_first_rejected) = 0%nat ->
       PlayerRecord.team p = if (4 <? 5)%nat then lit "Red" else lit "Blue").
Proof.
  eexists _, _. split; [reflexivity|]. split; [reflexivity|].
  eapply (team_by_row_index rows_first_rejected); reflexivity.
Defined.

(** C10: in the emitted sequence a Red record always comes before a Blue
    record: the team follows the row index, and the filter keeps the order of
    the rows. *)
Theorem red_precedes_blue (rows : list Row) (players : list PlayerRecord.t)
    (k1 k2 : nat) (p1 p2 : PlayerRecord.t) :
  players_of rows = Normal players ->
  players !! k1 = Some p1 ->
  players !! k2 = Some p2 ->
  PlayerRecord.team p1 = lit "Red" ->
  PlayerRecord.team p2 = lit "Blue" ->
  (k1 < k2)%nat.
Proof.
  intros Hplayers H1 H2 Hred Hblue.
  destruct (players_of_lookup _ _ Hplayers _ _ H1) as (i1 & row1 & Hs1 & Hcb1).
  destruct (players_of_lookup _ _ Hplayers _ _ H2) as (i2 & row2 & Hs2 & Hcb2).
  apply row_callback_Some in Hcb1 as (_ & _ & Ht1 & _).
  apply row_callback_Some in Hcb2 as (_ & _ & Ht2 & _).
  rewrite Hred in Ht1. rewrite Hblue in Ht2.
  destruct (team_of_cases i1) as [[_ Hi1]|[E _]]; [|by rewrite <- Ht1 in E].
  destruct (team_of_cases i2) as [[E _]|[_ Hi2]]; [by rewrite <- Ht2 in E|].
  destruct (lt_eq_lt_dec k1 k2) as [[Hlt|Heq]|Hgt]; [done| |].
  - subst k2. rewrite Hs1 in Hs2. injection Hs2 as -> _. lia.
  - pose proof (survivors_increasing _ _ _ _ _ _ _ _ Hgt Hs2 Hs1). lia.
Qed.

Lemma red_precedes_blue_witness :
  exists players p1 p2,
    players_of rows_first_rejected = Normal players /\
    players !! 3%nat = Some p1 /\
    players !! 4%nat = Some p2 /\
    (3 < 4)%nat.
Proof.
  eexists _, _, _. split; [reflexivity|]. split; [reflexivity|].
  split; [reflexivity|].
  eapply (red_precedes_blue rows_first_rejected); reflexivity.
Defined.

(** ** Row rejection *)

(** C4: a row whose trimmed name or trimmed tag is empty gives [null] and
    nothing else; the output holds one record for each of the other rows, so
    it is shorter than the row sequence by exactly the number of such rows. *)
Theorem rejected_rows_absent (rows : list Row) (players : list PlayerRecord.t) :
  players_of rows = Normal players ->
  (forall row,
     rejected row = true <->
     trimmed_text (username row) = [] \/ trimmed_text (discriminator row) = []) /\
  (forall i row,
     rows !! i = Some row -> rejected row = true ->
     row_callback row i = Normal None) /\
  (length players + count_rejected rows = length rows)%nat /\
  (forall k p,
     players !! k = Some p ->
     exists i row,
       rows !! i = Some row /\ rejected row = false /\
       (k + count_rejected (take i rows) = i)%nat /\
       row_callback row i = Normal (Some p)).
Proof.
  intros Hplayers. split; [apply rejected_spec|].
  split; [intros i row _ Hrej; by apply row_callback_rejected|].
  split.
  - pose proof (players_of_survivors _ _ Hplayers) as Hlen.
    apply Forall2_length in Hlen. rewrite Hlen. apply survivors_length.
  - intros k p Hk.
    destruct (players_of_lookup _ _ Hplayers _ _ Hk) as (i & row & Hs & Hcb).
    apply survivors_lookup in Hs as (_ & Hrow & Hrej & Hcount).
    rewrite Nat.sub_0_r in Hrow, Hcount. eauto 10.
Qed.

Lemma rejected_rows_absent_witness :
  exists players,
    players_of rows_first_rejected = Normal players /\
    (length players + count_rejected rows_first_rejected
     = length rows_first_rejected)%nat.
Proof.
  eexists. split; [reflexivity|].
  eapply (rejected_rows_absent rows_first_rejected). reflexivity.
Defined.

(** ** Identity construction *)

Lemma endsWith_true (s : jsstring) (c : N) :
  endsWith s c = true <-> exists s', s = s' ++ [c].
Proof.
  unfold endsWith. split.
  - destruct (list.last s) as [d|] eqn:E; [|done].
    intros ->%N.eqb_eq. by apply last_Some.
  - intros (s' & ->). rewrite last_snoc. apply N.eqb_refl.
Qed.

Lemma startsWith_true (s : jsstring) (c : N) :
  startsWith s c = true <-> exists s', s = c :: s'.
Proof.
  unfold startsWith. destruct s as [|d s']; split.
  - done.
  - by intros (? & ?).
  - intros ->%N.eqb_eq. eauto.
  - intros (? & [= -> _]). apply N.eqb_refl.
Qed.

(** A single trailing '#' is removed from the name, if there is one. *)
Lemma cleanName_of_spec (rawName : jsstring) :
  rawName = cleanName_of rawName ++ lit "#" \/
  cleanName_of rawName = rawName /\ forall s, rawName <> s ++ lit "#".
Proof.
  unfold cleanName_of. destruct (endsWith rawName 35) eqn:E.
  - left. apply endsWith_true in E as (s' & ->).
    unfold slice_0_m1. by rewrite removelast_last.
  - right. split; [done|]. intros s ->.
    assert (endsWith (s ++ lit "#") 35 = true) by (apply endsWith_true; eauto).
    congruence.
Qed.

(** A single leading '#' is removed from the tag, if there is one. *)
Lemma cleanTag_of_spec (rawTag : jsstring) :
  rawTag = lit "#" ++ cleanTag_of rawTag \/
  cleanTag_of rawTag = rawTag /\ forall s, rawTag <> lit "#" ++ s.
Proof.
  unfold cleanTag_of. destruct (startsWith rawTag 35) eqn:E.
  - left. by apply startsWith_true in E as (s' & ->).
  - right. split; [done|]. intros s ->. done.
Qed.

(** C7: the identity of an accepted row is its name and its tag with exactly
    one '#' between them, after one trailing '#' of the raw name and one
    leading '#' of the raw tag are removed; "Foo#" and "#Bar" give "Foo#Bar". *)
Theorem identity_construction (row : Row) (index : nat) (p : PlayerRecord.t) :
  row_callback row index = Normal (Some p) ->
  exists cleanName cleanTag,
    PlayerRecord.name p = cleanName ++ lit "#" ++ cleanTag /\
    (rawName_of row = cleanName ++ lit "#" \/
     cleanName = rawName_of row /\ forall s, rawName_of row <> s ++ lit "#") /\
    (rawTag_of row = lit "#" ++ cleanTag \/
     cleanTag = rawTag_of row /\ forall s, rawTag_of row <> lit "#" ++ s) /\
    (rawName_of row = lit "Foo#" -> rawTag_of row = lit "#Bar" ->
     PlayerRecord.name p = lit "Foo#Bar").
Proof.
  intros H. apply row_callback_Some in H as (_ & Hname & _).
  exists (cleanName_of (rawName_of row)), (cleanTag_of (rawTag_of row)).
  split; [done|].
  split; [apply cleanName_of_spec|].
  split; [apply cleanTag_of_spec|].
  intros Hn Ht. rewrite Hname, Hn, Ht. reflexivity.
Qed.

Lemma identity_construction_witness :
  exists p,
    row_callback (sample_row " Foo# " " #Bar ") 7 = Normal (Some p) /\
    PlayerRecord.name p = lit "Foo#Bar".
Proof.
  eexists. split; [reflexivity|].
  destruct (identity_construction (sample_row " Foo# " " #Bar ") 7 _ eq_refl)
    as (cleanName & cleanTag & _ & _ & _ & H).
  exact (H eq_refl eq_refl).
Defined.

(** A row with a name and a tag is accepted whatever they are; the record it
    gives, which exists when the row has its fifteen cells, carries
    [name_of] of the two. *)
Lemma accepted_row (row : Row) (index : nat) :
  rawName_of row <> [] ->
  rawTag_of row <> [] ->
  rejected row = false /\
  (forall p,
     row_callback row index = Normal (Some p) ->
     PlayerRecord.name p = name_of (rawName_of row) (rawTag_of row)) /\
  (complete row -> exists p, row_callback row index = Normal (Some p)).
Proof.
  intros Hn Ht.
  assert (rejected row = false) as Hrej.
  { unfold rejected. by destruct (rawName_of row), (rawTag_of row). }
  split; [done|]. split.
  - by intros p (_ & -> & _)%row_callback_Some.
  - by apply row_callback_complete.
Qed.

(** C9: the validity check sees the raw trimmed name and tag. A raw name that
    is exactly "#" passes it when the tag is not empty, and the record of the
    row, emitted when the row has its fifteen cells, has an identity that
    starts with the separator, its name part being empty; the same holds for
    a raw tag that is exactly "#". *)
Theorem validity_precedes_stripping (row : Row) (index : nat) :
  (rawName_of row = lit "#" -> rawTag_of row <> [] ->
   rejected row = false /\
   (forall p,
      row_callback row index = Normal (Some p) ->
      PlayerRecord.name p = [] ++ lit "#" ++ cleanTag_of (rawTag_of row)) /\
   (complete row -> exists p, row_callback row index = Normal (Some p))) /\
  (rawTag_of row = lit "#" -> rawName_of row <> [] ->
   rejected row = false /\
   (forall p,
      row_callback row index = Normal (Some p) ->
      PlayerRecord.name p = cleanName_of (rawName_of row) ++ lit "#" ++ []) /\
   (complete row -> exists p, row_callback row index = Normal (Some p))).
Proof.
  split.
  - intros Hn Ht.
    destruct (accepted_row row index) as (Hrej & Hname & Hemit);
      [by rewrite Hn | done |].
    repeat split; [done | | done].
    intros p Hp. rewrite (Hname p Hp), Hn. reflexivity.
  - intros Ht Hn.
    destruct (accepted_row row index) as (Hrej & Hname & Hemit);
      [done | by rewrite Ht |].
    repeat split; [done | | done].
    intros p Hp. rewrite (Hname p Hp), Ht. reflexivity.
Qed.

Lemma validity_precedes_stripping_witness :
  rejected (sample_row "#" "Bar") = false /\
  exists p,
    row_callback (sample_row "#" "Bar") 0 = Normal (Some p) /\
    PlayerRecord.name p = lit "#Bar".
Proof.
  assert (rawTag_of (sample_row "#" "Bar") <> []) as Ht by discriminate.
  destruct (proj1 (validity_precedes_stripping (sample_row "#" "Bar") 0)
              eq_refl Ht) as (Hrej & Hname & _).
  split; [exact Hrej|].
  eexists. split; [reflexivity|]. by apply Hname.
Defined.

(** ** The match result *)

Lemma evaluate_Normal (document : Document) (targetRiotID : jsstring)
    (r : MatchResult.t) :
  evaluate document targetRiotID = Normal r <->
  exists players,
    players_of (st_content_items document) = Normal players /\
    r = MatchResult.make
          (map_of (mapText_of document))
          (or_string ((trim <$> header_labels document) !! 0%nat) [])
          (score_of (team_1_value document))
          (score_of (team_2_value document))
          (number_add (score_of (team_1_value document))
             (score_of (team_2_value document)))
          (won_of (user_team_of players targetRiotID)
             (score_of (team_1_value document))
             (score_of (team_2_value document)))
          players.
Proof.
  unfold evaluate. split.
  - intros H. bind_inv H. injection H as <-. eauto.
  - intros (players & -> & ->). reflexivity.
Qed.

(** With header scores 2^53 and 1 the round count is 2^53, one less than the
    sum of the two scores. *)
Lemma round_count_exact_fails :
  ~ round_count_exact document_large_score (lit "A#1").
Proof.
  intros H.
  destruct (H _ eq_refl) as (team1 & team2 & H1 & H2 & Hcount).
  vm_compute in H1, H2.
  injection H1 as <-. injection H2 as <-.
  vm_compute in Hcount. discriminate Hcount.
Qed.

(** C8 (amended): the round count of an emitted result is the Number that
    [+] gives for its two scores, which are the two parsed header scores; it
    is set nowhere else. When the scores stand for integers whose sum is below
    2^53 in magnitude, the round count is that sum exactly. *)
Theorem round_count_is_number_sum (document : Document)
    (targetRiotID : jsstring) (r : MatchResult.t) :
  evaluate document targetRiotID = Normal r ->
  MatchResult.round_count r
  = number_add (MatchResult.team1_score r) (MatchResult.team2_score r) /\
  MatchResult.team1_score r = score_of (team_1_value document) /\
  MatchResult.team2_score r = score_of (team_2_value document) /\
  (forall team1 team2,
     integer_value (MatchResult.team1_score r) = Some team1 ->
     integer_value (MatchResult.team2_score r) = Some team2 ->
     (Z.abs (team1 + team2) < 2 ^ 53)%Z ->
     integer_value (MatchResult.round_count r) = Some (team1 + team2)%Z).
Proof.
  intros (players & _ & ->)%evaluate_Normal. cbn.
  repeat split. intros team1 team2. apply number_add_exact.
Qed.

Lemma round_count_is_number_sum_witness :
  exists r,
    evaluate document_ascent (lit "Nova#KR1") = Normal r /\
    integer_value (MatchResult.round_count r) = Some (13 + 11)%Z.
Proof.
  eexists. split; [reflexivity|].
  eapply (round_count_is_number_sum document_ascent (lit "Nova#KR1"));
    [reflexivity | reflexivity | reflexivity | reflexivity].
Defined.

(** ** The map whitelist *)

Lemma map_of_spec (candidate : jsstring) :
  (candidate ∈ knownMaps -> map_of candidate = candidate) /\
  (candidate ∉ knownMaps -> map_of candidate = lit "Unknown").
Proof. unfold map_of. split; intros H; by case_bool_decide. Qed.

(** C6: the map of an emitted result is the candidate itself when it is one of
    the twelve known names, compared code unit by code unit, and "Unknown"
    otherwise. *)
Theorem map_whitelist (document : Document) (targetRiotID : jsstring)
    (r : MatchResult.t) :
  evaluate document targetRiotID = Normal r ->
  knownMaps =
    [ lit "Ascent"; lit "Bind"; lit "Breeze"; lit "Fracture"; lit "Haven";
      lit "Icebox"; lit "Lotus"; lit "Pearl"; lit "Split"; lit "Sunset";
      lit "Deadlock"; lit "Abyss" ] /\
  (mapText_of document ∈ knownMaps ->
   MatchResult.map r = mapText_of document) /\
  (mapText_of document ∉ knownMaps ->
   MatchResult.map r = lit "Unknown").
Proof.
  intros (players & _ & ->)%evaluate_Normal. cbn.
  split; [reflexivity | apply map_of_spec].
Qed.

Lemma map_whitelist_witness :
  exists r,
    evaluate document_ascent (lit "Nova#KR1") = Normal r /\
    MatchResult.map r = lit "Ascent".
Proof.
  eexists. split; [reflexivity|].
  destruct (map_whitelist document_ascent (lit "Nova#KR1") _ eq_refl)
    as (_ & Hin & _).
  rewrite Hin; [reflexivity|]. apply (bool_decide_unpack _). by vm_compute.
Defined.

(** The comparison is case-sensitive, and an absent header value is unknown. *)
Example map_of_lower_case : map_of (lit "ascent") = lit "Unknown".
Proof. reflexivity. Qed.

Example map_of_empty : map_of [] = lit "Unknown".
Proof. reflexivity. Qed.

(** ** The outcome *)

Lemma won_of_beats (team : jsstring) (redScore blueScore : Number) :
  won_of team redScore blueScore = true <-> beats team redScore blueScore.
Proof.
  unfold won_of, beats.
  case_bool_decide as Hred; [|case_bool_decide as Hblue].
  - subst team. split.
    + intros. by left.
    + intros [[_ ?]|[? _]]; done.
  - subst team. split.
    + intros. by right.
    + intros [[? _]|[_ ?]]; done.
  - split; [done | intros [[? _]|[? _]]; done].
Qed.

(** With equal scores nobody wins. *)
Lemma won_of_tie (team : jsstring) (score : Number) :
  won_of team score score = false.
Proof.
  unfold won_of. rewrite number_gt_irrefl. by repeat case_bool_decide.
Qed.

(** In a 7-13 match where the target's identity is listed at index 0 (Red)
    and again at index 5 (Blue), a record of the target is on the winning
    team, and [won] is false: only the first match counts. *)
Lemma won_iff_some_match_fails :
  ~ won_iff_some_match document_twice_listed (lit "X#1").
Proof.
  intros H.
  assert (exists r,
             evaluate document_twice_listed (lit "X#1") = Normal r /\
             MatchResult.won r = false /\
             exists p,
               p ∈ MatchResult.players r /\
               PlayerRecord.name p = lit "X#1" /\
               beats (PlayerRecord.team p)
                 (MatchResult.team1_score r) (MatchResult.team2_score r))
    as (r & E & Hwon & Hsome).
  { eexists. split; [reflexivity|]. split; [reflexivity|].
    eexists. split; [|split].
    - eapply (list_elem_of_lookup_2 _ 5). reflexivity.
    - reflexivity.
    - right. split; reflexivity. }
  apply (H r E) in Hsome. congruence.
Qed.

(** When no two records share a name, the first record with the target's
    name is the only one, and [won_iff_some_match] holds. *)
Lemma won_iff_some_match_unique (document : Document) (targetRiotID : jsstring) :
  (forall players,
     players_of (st_content_items document) = Normal players ->
     NoDup (PlayerRecord.name <$> players)) ->
  won_iff_some_match document targetRiotID.
Proof.
  intros Hunique r (players & Hplayers & ->)%evaluate_Normal. cbn.
  specialize (Hunique players Hplayers).
  rewrite won_of_beats, (user_team_beats _ _ Hplayers). split.
  - intros (k & p & Hk & Hn & _ & Hb). exists p.
    split; [by eapply list_elem_of_lookup_2 | done].
  - intros (p & (j & Hj)%list_elem_of_lookup_1 & Hn & Hb).
    exists j, p. repeat split; try done.
    intros i q Hi Hq Hq'.
    assert (i = j); [|lia].
    eapply NoDup_lookup; [exact Hunique | |].
    + rewrite list_lookup_fmap, Hq. cbn. by rewrite Hq'.
    + rewrite list_lookup_fmap, Hj. cbn. by rewrite Hn.
Qed.

(** C3 (amended): once the player list is materialised the result is produced
    without an error, and [won] is true exactly when the first record whose
    name equals the target exists and its team's score is strictly above the
    other team's score. Without a matching record, or with equal scores,
    [won] is false. *)
Theorem won_iff_first_match (document : Document) (targetRiotID : jsstring)
    (players : list PlayerRecord.t) :
  players_of (st_content_items document) = Normal players ->
  exists r,
    evaluate document targetRiotID = Normal r /\
    MatchResult.players r = players /\
    (MatchResult.won r = true <->
     exists k p,
       players !! k = Some p /\
       PlayerRecord.name p = targetRiotID /\
       (forall j q, (j < k)%nat -> players !! j = Some q ->
                    PlayerRecord.name q <> targetRiotID) /\
       beats (PlayerRecord.team p)
         (MatchResult.team1_score r) (MatchResult.team2_score r)) /\
    ((forall p, p ∈ players -> PlayerRecord.name p <> targetRiotID) ->
     MatchResult.won r = false) /\
    (MatchResult.team1_score r = MatchResult.team2_score r ->
     MatchResult.won r = false).
Proof.
  intros Hplayers. eexists. split; [apply evaluate_Normal; eauto|].
  cbn. split; [done|].
  set (redScore := score_of (team_1_value document)).
  set (blueScore := score_of (team_2_value document)).
  split; [|split].
  - rewrite won_of_beats. by apply (user_team_beats _ _ Hplayers).
  - intros Hnone. by rewrite (user_team_unmatched _ _ Hplayers).
  - intros Htie. rewrite <- Htie. apply won_of_tie.
Qed.

Lemma won_iff_first_match_witness :
  exists r,
    evaluate document_ascent (lit "Nova#KR1") = Normal r /\
    MatchResult.won r = true.
Proof.
  destruct (won_iff_first_match document_ascent (lit "Nova#KR1") _ eq_refl)
    as (r & E & _ & Hwon & _).
  exists r. split; [exact E|]. apply Hwon.
  vm_compute in E. injection E as E. subst r.
  eexists 2%nat, _. split; [reflexivity|]. split; [reflexivity|]. split.
  - intros [|[|j]] q Hj Hq; [| |lia];
      vm_compute in Hq; injection Hq as Hq; subst q; discriminate.
  - left. split; reflexivity.
Defined.

(** ** The integer stats *)

(** [parseInt] gives NaN or a Number with the sign it read. *)
Lemma parseInt_sign (s : jsstring) (radix : N) :
  parseInt s radix = NaN \/
  has_sign (startsWith (trimStart s) 45) (parseInt s radix).
Proof.
  unfold parseInt, read_integer.
  destruct ((_ <? 2) || _); [by left|].
  destruct (radix_prefix _ _) as [|d ds]; [by left|]. right.
  set (v := radix_value _ _). destruct (N.eqb_spec v 0) as [|Hv]; [done|].
  unfold round_integer. destruct v as [|v]; [done|].
  destruct (startsWith (trimStart s) 45); cbn; apply binary_round_sign.
Qed.

(** Once NaN and the zeros are replaced by 0, [parseInt] gives the Number for
    the integer it read. *)
Lemma or_zero_parseInt (s : jsstring) (radix : N) :
  or_zero (parseInt s radix) = or_zero (round_integer (integer_read s radix)).
Proof.
  unfold parseInt, integer_read.
  destruct (read_integer s radix) as [[negative v]|]; [|done].
  destruct (N.eqb_spec v 0) as [->|Hv]; [by destruct negative | done].
Qed.

(** Below 2^53 in magnitude the integer read is held exactly. *)
Lemma or_zero_round_integer_exact (z : Z) :
  (Z.abs z < 2 ^ 53)%Z ->
  integer_value (or_zero (round_integer z)) = Some z.
Proof. intros Hz. by apply or_zero_integer_value, round_integer_exact. Qed.

Lemma or_zero_nonnegative (s : jsstring) (radix : N) :
  startsWith (trimStart s) 45 = false ->
  has_sign false (or_zero (parseInt s radix)).
Proof.
  intros Hminus. destruct (parseInt_sign s radix) as [->|H]; [done|].
  rewrite Hminus in H. by destruct (parseInt s radix).
Qed.

Lemma toInt_present (cell : jsstring) :
  toInt (Some cell) = Normal (or_zero (parsed_cell cell)).
Proof. reflexivity. Qed.

(** The score cell "-5" is read as -5. *)
Lemma int_stats_nonnegative_fails : ~ int_stats_nonnegative [negative_score_row].
Proof.
  intros H.
  assert (exists players p,
             players_of [negative_score_row] = Normal players /\
             p ∈ players /\
             PlayerRecord.score p = round_integer (-5))
    as (players & p & E & Hin & Hscore).
  { eexists _, _. split; [reflexivity|]. split.
    - eapply (list_elem_of_lookup_2 _ 0). reflexivity.
    - reflexivity. }
  specialize (H players p E Hin). unfold int_stats in H.
  apply Forall_cons_1 in H as [H _]. cbn [snd] in H.
  rewrite Hscore in H. discriminate H.
Qed.

(** C5 (amended): each of the seven integer stats of an emitted record is
    what [parseInt] returns for its cell, with 0 for NaN: the Number for the
    integer read in the cell, 0 when none is read. That Number is the integer
    itself when it is below 2^53 in magnitude. It is not negative unless the
    cell's text, once '+', ',' and '%' are removed and leading white space is
    skipped, starts with '-'. *)
Theorem int_stats_parsed (rows : list Row) (players : list PlayerRecord.t)
    (p : PlayerRecord.t) :
  players_of rows = Normal players ->
  p ∈ players ->
  exists row,
    row ∈ rows /\
    Forall (fun kv =>
              exists cell,
                cells_of row !! kv.1 = Some cell /\
                kv.2 = or_zero (parsed_cell cell) /\
                (parsed_cell cell = NaN -> kv.2 = zero) /\
                kv.2 = or_zero (round_integer (cell_integer cell)) /\
                ((Z.abs (cell_integer cell) < 2 ^ 53)%Z ->
                 integer_value kv.2 = Some (cell_integer cell)) /\
                (reads_minus cell = false -> SFleb zero kv.2 = true))
      (int_stats p).
Proof.
  intros Hplayers (k & Hk)%list_elem_of_lookup_1.
  destruct (players_of_lookup _ _ Hplayers _ _ Hk) as (i & row & Hs & Hcb).
  apply survivors_lookup in Hs as (_ & Hrow & _).
  exists row. split; [by eapply list_elem_of_lookup_2|].
  assert (forall j v, toInt (cells_of row !! j) = Normal v ->
            exists cell,
              cells_of row !! j = Some cell /\
              v = or_zero (parsed_cell cell) /\
              (parsed_cell cell = NaN -> v = zero) /\
              v = or_zero (round_integer (cell_integer cell)) /\
              ((Z.abs (cell_integer cell) < 2 ^ 53)%Z ->
               integer_value v = Some (cell_integer cell)) /\
              (reads_minus cell = false -> SFleb zero v = true)) as Hstat.
  { intros j v (cell & Hcell & ->)%toInt_Normal. exists cell.
    fold (parsed_cell cell). split; [done|]. split; [done|].
    split; [by intros ->|]. split; [apply or_zero_parseInt|].
    split.
    - intros Hz. unfold parsed_cell. rewrite or_zero_parseInt.
      by apply or_zero_round_integer_exact.
    - intros Hminus. by apply has_sign_leb, or_zero_nonnegative. }
  apply row_callback_Some in Hcb
    as (_ & _ & _ & H2 & H3 & H4 & H5 & H12 & H13 & H14).
  unfold int_stats. repeat constructor; by apply Hstat.
Qed.

Lemma int_stats_parsed_witness :
  exists players p,
    players_of [negative_score_row] = Normal players /\
    p ∈ players /\
    exists row,
      row ∈ [negative_score_row] /\
      Forall (fun kv =>
                exists cell,
                  cells_of row !! kv.1 = Some cell /\
                  kv.2 = or_zero (parsed_cell cell) /\
                  (parsed_cell cell = NaN -> kv.2 = zero) /\
                  kv.2 = or_zero (round_integer (cell_integer cell)) /\
                  ((Z.abs (cell_integer cell) < 2 ^ 53)%Z ->
                   integer_value kv.2 = Some (cell_integer cell)) /\
                  (reads_minus cell = false -> SFleb zero kv.2 = true))
        (int_stats p).
Proof.
  eexists _, _. split; [reflexivity|].
  assert (forall (x : PlayerRecord.t), x ∈ [x]) as Hin by (intros; left).
  split; [apply Hin|].
  eapply (int_stats_parsed [negative_score_row]); [reflexivity | apply Hin].
Defined.

(** ** Absent cells *)

(** An accepted row without its fifteen cells aborts the whole extraction. *)
Lemma evaluate_incomplete_row (document : Document) (targetRiotID : jsstring)
    (row : Row) :
  row ∈ st_content_items document ->
  rejected row = false ->
  ~ complete row ->
  evaluate document targetRiotID = Throw.
Proof.
  intros Hin Hrej Hlen.
  destruct (evaluate document targetRiotID) as [r|] eqn:E; [|done].
  apply evaluate_Normal in E as (players & Hplayers & _).
  assert (exists ps, players_of (st_content_items document) = Normal ps)
    as Hall%players_of_Normal by eauto.
  rewrite Forall_forall in Hall. apply list_elem_of_In in Hin.
  by specialize (Hall row Hin Hrej).
Qed.

(** C2: on a cell that is absent [toInt] and [toFloat] throw instead of
    giving 0, and the throw ends the extraction of the document; the text
    "N/A" of a cell that is present gives 0. *)
Theorem absent_cell_throws :
  toInt None = Throw /\
  toFloat None = Throw /\
  cells_of cell_less_row !! 2%nat = None /\
  row_callback cell_less_row 0 = Throw /\
  evaluate document_cell_less (lit "Foo#Bar") = Throw /\
  toInt (Some (lit "N/A")) = Normal zero /\
  toFloat (Some (lit "N/A")) = Normal zero.
Proof. repeat split; reflexivity. Qed.

(** ** When the extraction fails *)

Lemma row_callback_Throw (row : Row) (index : nat) :
  row_callback row index = Throw <-> rejected row = false /\ ~ complete row.
Proof.
  split.
  - intros H. destruct (rejected row) eqn:Hrej.
    + by rewrite (row_callback_rejected _ _ Hrej) in H.
    + split; [done|]. intros Hc.
      destruct (row_callback_complete row index Hrej Hc) as (p & Hp).
      congruence.
  - intros [Hrej Hc]. by apply row_callback_incomplete.
Qed.

Lemma array_map_Throw (rows : list Row) (index : nat) :
  array_map row_callback index rows = Throw ->
  exists row, row ∈ rows /\ rejected row = false /\ ~ complete row.
Proof.
  revert index. induction rows as [|row rest IH]; intros index H; cbn in H.
  - done.
  - apply bind_Throw in H as [H|(y & _ & H)].
    + apply row_callback_Throw in H. exists row. split; [left | done].
    + apply bind_Throw in H as [H|(ys & _ & H)]; [|done].
      apply IH in H as (r & Hin & Hr). exists r. split; [by right | done].
Qed.

(** X1: the extraction throws exactly when some row that passes the validity
    check has fewer than fifteen stat cells; rows without a name or a tag,
    the headers and the target play no part in it. *)
Theorem evaluate_throws_iff (document : Document) (targetRiotID : jsstring) :
  evaluate document targetRiotID = Throw <->
  exists row,
    row ∈ st_content_items document /\
    rejected row = false /\
    (length (item_values row) < 15)%nat.
Proof.
  split.
  - intros H. unfold evaluate, players_of in H.
    apply bind_Throw in H as [H|(players & _ & H)]; [|done].
    apply bind_Throw in H as [H|(mapped & _ & H)]; [|done].
    apply array_map_Throw in H as (row & Hin & Hrej & Hc).
    exists row. unfold complete in Hc. repeat split; [done..|lia].
  - intros (row & Hin & Hrej & Hlen).
    apply (evaluate_incomplete_row _ _ row); [done..|].
    unfold complete. lia.
Qed.

(** ** How many records each team has *)

Lemma red_records_length (players : list PlayerRecord.t) :
  (forall k p, players !! k = Some p ->
               PlayerRecord.team p = lit "Red" -> (k < 5)%nat) ->
  (length (red_records players) <= 5)%nat.
Proof.
  intros H.
  assert (forall n (l : list PlayerRecord.t),
            (forall k p, l !! k = Some p ->
                         PlayerRecord.team p = lit "Red" -> (k < n)%nat) ->
            (length (red_records l) <= n)%nat) as Hgen.
  { clear. intros n l. revert n. unfold red_records.
    induction l as [|a l IH]; intros n H; cbn; [lia|].
    case_bool_decide as Ha.
    - pose proof (H 0%nat a eq_refl Ha). destruct n as [|n]; [lia|].
      cbn. apply le_n_S, IH. intros k p Hk Hp.
      specialize (H (S k) p Hk Hp). lia.
    - apply IH. intros k p Hk Hp. specialize (H (S k) p Hk Hp). lia. }
  by apply Hgen.
Qed.

(** Either every record is Red, or the first one that is not has only Red
    records before it. *)
Lemma first_not_red (players : list PlayerRecord.t) :
  red_records players = players \/
  exists k p,
    players !! k = Some p /\
    PlayerRecord.team p <> lit "Red" /\
    (k <= length (red_records players))%nat.
Proof.
  induction players as [|a l IH]; [by left|].
  change (red_records (a :: l))
    with (if bool_decide (PlayerRecord.team a = lit "Red")
          then a :: red_records l else red_records l).
  case_bool_decide as Ha.
  - destruct IH as [IH|(k & p & Hk & Hp & Hle)].
    + left. by rewrite IH.
    + right. exists (S k), p. repeat split; [done..|]. cbn [length]. lia.
  - right. exists 0%nat, a. repeat split; [done|]. lia.
Qed.

(** X2: a Red record sits at one of the first five positions of the output
    and a Blue record comes from a row at index 5 or more, so there are at
    most five Red records and at most [length rows - 5] Blue ones. *)
Theorem red_in_first_five (rows : list Row) (players : list PlayerRecord.t) :
  players_of rows = Normal players ->
  (forall k p, players !! k = Some p ->
               PlayerRecord.team p = lit "Red" -> (k < 5)%nat) /\
  (length (red_records players) <= 5)%nat /\
  (length players - length (red_records players) <= length rows - 5)%nat.
Proof.
  intros Hplayers.
  assert (forall k p, players !! k = Some p ->
            exists i, (k <= i < length rows)%nat /\
                      (length players - k <= length rows - i)%nat /\
                      PlayerRecord.team p = team_of i) as Hpos.
  { intros k p Hk.
    destruct (players_of_lookup _ _ Hplayers _ _ Hk) as (i & row & Hs & Hcb).
    apply row_callback_Some in Hcb as (_ & _ & Hteam & _).
    pose proof (survivors_lookup _ _ _ _ _ Hs) as (_ & Hrow & _ & Hcount).
    rewrite Nat.sub_0_r in Hrow, Hcount.
    apply lookup_lt_Some in Hrow.
    pose proof (players_of_survivors _ _ Hplayers) as Hlen.
    apply Forall2_length in Hlen.
    pose proof (survivors_length rows 0) as Hsurv.
    pose proof (count_rejected_take rows i (length rows) ltac:(lia)) as Hrej.
    rewrite firstn_all in Hrej.
    exists i. repeat split; [lia | done | lia | done]. }
  assert (forall k p, players !! k = Some p ->
            PlayerRecord.team p = lit "Red" -> (k < 5)%nat) as Hred.
  { intros k p Hk Hp. destruct (Hpos k p Hk) as (i & Hi & _ & Hteam).
    rewrite Hp in Hteam.
    destruct (team_of_cases i) as [[_ ?]|[E _]]; [lia | by rewrite <- Hteam in E]. }
  split; [done|]. split; [by apply red_records_length|].
  destruct (first_not_red players) as [->|(k & p & Hk & Hp & Hle)]; [lia|].
  destruct (Hpos k p Hk) as (i & Hi & Hrest & Hteam).
  destruct (team_of_cases i) as [[E _]|[_ ?]]; [congruence | lia].
Qed.

Lemma red_in_first_five_witness :
  exists players,
    players_of rows_first_rejected = Normal players /\
    (length (red_records players) <= 5)%nat /\
    (length players - length (red_records players)
     <= length rows_first_rejected - 5)%nat.
Proof.
  eexists. split; [reflexivity|].
  eapply (red_in_first_five rows_first_rejected). reflexivity.
Defined.

(** ** Trimming *)

Lemma rev_is_reverse {A} (l : list A) : rev l = reverse l.
Proof. apply rev_alt. Qed.

Lemma trimStart_head (s : jsstring) (c : N) :
  list.head (trimStart s) = Some c -> is_white_space c = false.
Proof.
  induction s as [|a s IH]; cbn; [done|].
  destruct (is_white_space a) eqn:Ha; [done|]. cbn. by intros [= <-].
Qed.

Lemma trimStart_fix (s : jsstring) :
  (forall c, list.head s = Some c -> is_white_space c = false) ->
  trimStart s = s.
Proof. destruct s as [|a s]; cbn; [done|]. intros H. by rewrite (H a). Qed.

(** What [trimStart] keeps is a suffix, so it ends as [s] does. *)
Lemma trimStart_last (s : jsstring) (c : N) :
  list.last (trimStart s) = Some c -> list.last s = Some c.
Proof.
  induction s as [|a s IH]; cbn; [done|].
  destruct (is_white_space a); [|done].
  intros H. specialize (IH H). rewrite last_cons. by rewrite IH.
Qed.

Lemma trimEnd_last (s : jsstring) (c : N) :
  list.last (trimEnd s) = Some c -> is_white_space c = false.
Proof.
  unfold trimEnd. rewrite !rev_is_reverse, last_reverse. apply trimStart_head.
Qed.

Lemma trimEnd_head (s : jsstring) (c : N) :
  list.head (trimEnd s) = Some c -> list.head s = Some c.
Proof.
  unfold trimEnd. rewrite !rev_is_reverse, head_reverse.
  intros H%trimStart_last. by rewrite last_reverse in H.
Qed.

Lemma trimEnd_fix (s : jsstring) :
  (forall c, list.last s = Some c -> is_white_space c = false) ->
  trimEnd s = s.
Proof.
  intros H. unfold trimEnd. rewrite trimStart_fix; [apply rev_involutive|].
  intros c. rewrite rev_is_reverse, head_reverse. apply H.
Qed.

Lemma trim_no_outer_space (s : jsstring) : no_outer_space (trim s).
Proof.
  unfold trim. split; intros c H.
  - apply trimEnd_head in H. by apply trimStart_head in H.
  - by apply trimEnd_last in H.
Qed.

Lemma trim_fix (s : jsstring) : no_outer_space s -> trim s = s.
Proof.
  intros [Hhead Hlast]. unfold trim.
  rewrite (trimStart_fix s Hhead). by apply trimEnd_fix.
Qed.

Lemma trim_idempotent (s : jsstring) : trim (trim s) = trim s.
Proof. apply trim_fix, trim_no_outer_space. Qed.

Lemma no_outer_space_nil : no_outer_space [].
Proof. by split. Qed.

Lemma or_string_no_outer_space (a : option jsstring) (b : jsstring) :
  (forall s, a = Some s -> no_outer_space s) ->
  no_outer_space b ->
  no_outer_space (or_string a b).
Proof.
  intros Ha Hb. destruct a as [[|c s]|]; cbn; [done| |done]. by apply Ha.
Qed.

Lemma or_string_nonempty (a : option jsstring) (b : jsstring) :
  b <> [] -> or_string a b <> [].
Proof. intros Hb. by destruct a as [[|c s]|]. Qed.

Lemma rawName_no_outer_space (row : Row) : no_outer_space (rawName_of row).
Proof.
  rewrite rawName_of_trimmed. unfold trimmed_text.
  destruct (username row); [apply trim_no_outer_space | apply no_outer_space_nil].
Qed.

Lemma rawTag_no_outer_space (row : Row) : no_outer_space (rawTag_of row).
Proof.
  rewrite rawTag_of_trimmed. unfold trimmed_text.
  destruct (discriminator row);
    [apply trim_no_outer_space | apply no_outer_space_nil].
Qed.

(** An identity built from a trimmed name and a trimmed tag starts and ends
    with a code unit that is not white space. *)
Lemma name_of_no_outer_space (rawName rawTag : jsstring) :
  no_outer_space rawName -> no_outer_space rawTag ->
  no_outer_space (name_of rawName rawTag).
Proof.
  intros [Hn _] [_ Ht]. unfold name_of. split; intros c.
  - rewrite head_app. destruct (cleanName_of rawName) as [|d cn] eqn:E; cbn.
    + by intros [= <-].
    + intros [= <-]. apply Hn.
      destruct (cleanName_of_spec rawName) as [->|[<- _]];
        rewrite E; reflexivity.
  - rewrite last_app. cbn [lit app].
    change (lit "#" ++ cleanTag_of rawTag) with (35 :: cleanTag_of rawTag).
    rewrite last_cons.
    destruct (list.last (cleanTag_of rawTag)) as [d|] eqn:E.
    + intros [= <-]. apply Ht.
      destruct (cleanTag_of_spec rawTag) as [->|[<- _]]; [|done].
      change (lit "#" ++ cleanTag_of rawTag) with (35 :: cleanTag_of rawTag).
      rewrite last_cons. by rewrite E.
    + by intros [= <-].
Qed.

Lemma name_of_has_separator (rawName rawTag : jsstring) :
  35 ∈ name_of rawName rawTag.
Proof. unfold name_of. apply elem_of_app. right. left. Qed.

(** The text fields and the ratios of an emitted record. *)
Lemma row_callback_fields (row : Row) (index : nat) (p : PlayerRecord.t) :
  row_callback row index = Normal (Some p) ->
  PlayerRecord.agent p = or_string (trim <$> agentImg_alt row) (lit "?") /\
  PlayerRecord.tier p = nullish_string (rankImg_alt row) (lit "?") /\
  PlayerRecord.plus_minus p = or_string (cells_of row !! 6%nat) (lit "?") /\
  PlayerRecord.dda p = or_string (cells_of row !! 8%nat) (lit "?") /\
  PlayerRecord.kast_pct p = or_string (cells_of row !! 11%nat) (lit "?") /\
  toFloat (cells_of row !! 7%nat) = Normal (PlayerRecord.kd_ratio p) /\
  toFloat (cells_of row !! 9%nat) = Normal (PlayerRecord.adr p) /\
  toFloat (cells_of row !! 10%nat) = Normal (PlayerRecord.hs_pct p).
Proof.
  unfold row_callback. intros H.
  destruct (rejected row) eqn:Hrej; [done|].
  do 10 bind_inv H.
  injection H as <-. cbn. by repeat split.
Qed.

(** An emitted record comes from a row with its fifteen cells. *)
Lemma row_callback_Some_complete (row : Row) (index : nat) (p : PlayerRecord.t) :
  row_callback row index = Normal (Some p) -> complete row.
Proof.
  intros H. destruct (decide (15 <= length (item_values row))%nat) as [|Hn];
    [done|].
  pose proof (row_callback_Some _ _ _ H) as (Hrej & _).
  rewrite (row_callback_incomplete _ _ Hrej Hn) in H. done.
Qed.

(** ** The shape of the strings of a record *)

(** X3: the identity of an emitted record contains the separator '#', and
    neither starts nor ends with white space: trimming it changes nothing. *)
Theorem name_shape (row : Row) (index : nat) (p : PlayerRecord.t) :
  row_callback row index = Normal (Some p) ->
  35 ∈ PlayerRecord.name p /\
  no_outer_space (PlayerRecord.name p) /\
  trim (PlayerRecord.name p) = PlayerRecord.name p.
Proof.
  intros (_ & -> & _)%row_callback_Some.
  pose proof (name_of_no_outer_space _ _
                (rawName_no_outer_space row) (rawTag_no_outer_space row)).
  split; [apply name_of_has_separator|]. split; [done | by apply trim_fix].
Qed.

Lemma name_shape_witness :
  exists p,
    row_callback (sample_row "  Foo# " " #Bar  ") 3 = Normal (Some p) /\
    35 ∈ PlayerRecord.name p /\
    no_outer_space (PlayerRecord.name p) /\
    trim (PlayerRecord.name p) = PlayerRecord.name p.
Proof.
  eexists. split; [reflexivity|].
  eapply (name_shape (sample_row "  Foo# " " #Bar  ") 3). reflexivity.
Defined.

(** X4: the target is compared as it is given. A target without a '#', or
    with white space at its start or end, equals the identity of no record,
    and [won] is false. *)
Theorem malformed_target_never_wins (document : Document)
    (targetRiotID : jsstring) (r : MatchResult.t) :
  evaluate document targetRiotID = Normal r ->
  35 ∉ targetRiotID \/ trim targetRiotID <> targetRiotID ->
  (forall p, p ∈ MatchResult.players r -> PlayerRecord.name p <> targetRiotID) /\
  MatchResult.won r = false.
Proof.
  intros (players & Hplayers & ->)%evaluate_Normal Hbad. cbn.
  assert (forall p, p ∈ players -> PlayerRecord.name p <> targetRiotID) as Hnone.
  { intros p (k & Hk)%list_elem_of_lookup_1 Hname.
    destruct (players_of_lookup _ _ Hplayers _ _ Hk) as (i & row & _ & Hcb).
    apply row_callback_Some in Hcb as (_ & Hp & _).
    rewrite Hp in Hname. subst targetRiotID.
    destruct Hbad as [Hsep|Htrim].
    - apply Hsep, name_of_has_separator.
    - apply Htrim, trim_fix, name_of_no_outer_space;
        [apply rawName_no_outer_space | apply rawTag_no_outer_space]. }
  split; [done|]. by rewrite (user_team_unmatched _ _ Hplayers).
Qed.

Lemma malformed_target_never_wins_witness :
  exists r,
    evaluate document_ascent (lit "Nova#KR1 ") = Normal r /\
    MatchResult.won r = false.
Proof.
  eexists. split; [reflexivity|].
  eapply (malformed_target_never_wins document_ascent (lit "Nova#KR1 ")).
  - reflexivity.
  - right. discriminate.
Defined.

(** X5: in an emitted record the agent and the three stats kept as text are
    never empty and carry no white space at either end. The cell of such a
    stat is always there: the stat is its trimmed text, and "?" stands for a
    cell whose trimmed text is empty. *)
Theorem text_fields_shape (row : Row) (index : nat) (p : PlayerRecord.t) :
  row_callback row index = Normal (Some p) ->
  PlayerRecord.agent p <> [] /\
  no_outer_space (PlayerRecord.agent p) /\
  Forall (fun kv =>
            exists cell,
              item_values row !! kv.1 = Some cell /\
              kv.2 = (if is_nil (trim cell) then lit "?" else trim cell) /\
              kv.2 <> [] /\
              no_outer_space kv.2)
    (text_stats p).
Proof.
  intros H.
  pose proof (row_callback_Some_complete _ _ _ H) as Hc.
  apply row_callback_fields in H as (Ha & _ & H6 & H8 & H11 & _).
  assert (no_outer_space (lit "?")) as Hq.
  { split; intros c [= <-]; reflexivity. }
  split; [rewrite Ha; by apply or_string_nonempty|].
  split.
  { rewrite Ha. apply or_string_no_outer_space; [|done].
    intros s Hs. destruct (agentImg_alt row); [|done].
    injection Hs as <-. apply trim_no_outer_space. }
  assert (forall k v, (k < 15)%nat ->
            v = or_string (cells_of row !! k) (lit "?") ->
            exists cell,
              item_values row !! k = Some cell /\
              v = (if is_nil (trim cell) then lit "?" else trim cell) /\
              v <> [] /\ no_outer_space v) as Hstat.
  { intros k v Hk ->. unfold complete in Hc.
    destruct (lookup_lt_is_Some_2 (item_values row) k ltac:(lia)) as [cell Hcell].
    exists cell. split; [done|]. unfold cells_of.
    rewrite list_lookup_fmap, Hcell. cbn.
    pose proof (trim_no_outer_space cell).
    by destruct (trim cell). }
  unfold text_stats.
  do 3 (constructor; [apply Hstat; [cbn; lia | done]|]). constructor.
Qed.

Lemma text_fields_shape_witness :
  exists p,
    row_callback (sample_row "Foo" "Bar") 0 = Normal (Some p) /\
    PlayerRecord.agent p <> [] /\
    PlayerRecord.plus_minus p = lit "+5".
Proof.
  eexists. split; [reflexivity|].
  destruct (text_fields_shape (sample_row "Foo" "Bar") 0 _ eq_refl)
    as (Hagent & _ & _).
  split; [exact Hagent | reflexivity].
Defined.

(** ** Reading digits *)

Lemma radix_digit_char (R d : N) :
  d < R -> R <= 36 -> radix_digit R (digit_char d) = Some d.
Proof.
  intros Hd HR. unfold radix_digit, digit_value, digit_char.
  destruct (N.ltb_spec d 10).
  - replace ((48 <=? 48 + d) && (48 + d <=? 57)) with true
      by (symmetry; apply andb_true_iff; split; apply N.leb_le; lia).
    replace (48 + d - 48) with d by lia.
    by apply N.ltb_lt in Hd as ->.
  - replace ((48 <=? 87 + d) && (87 + d <=? 57)) with false
      by (symmetry; apply andb_false_iff; right; apply N.leb_gt; lia).
    replace ((97 <=? 87 + d) && (87 + d <=? 122)) with true
      by (symmetry; apply andb_true_iff; split; apply N.leb_le; lia).
    replace (87 + d - 87) with d by lia.
    by apply N.ltb_lt in Hd as ->.
Qed.

(** A digit character is neither white space nor a sign. *)
Lemma digit_char_plain (d : N) :
  d < 36 ->
  is_white_space (digit_char d) = false /\
  (digit_char d =? 45) = false /\
  (digit_char d =? 43) = false.
Proof.
  intros Hd. unfold is_white_space, digit_char.
  destruct (N.ltb_spec d 10);
    repeat match goal with
    | |- context [?a =? ?b] => destruct (N.eqb_spec a b); [lia|]
    | |- context [?a <=? ?b] => destruct (N.leb_spec a b)
    end; cbn; try done; lia.
Qed.

(** The digits of the longest prefix are those written, when what follows is
    not a digit. *)
Lemma radix_prefix_digits (R : N) (ds : list N) (rest : jsstring) :
  R <= 36 ->
  Forall (fun d => d < R) ds ->
  (forall c, list.head rest = Some c -> radix_digit R c = None) ->
  radix_prefix R ((digit_char <$> ds) ++ rest) = ds.
Proof.
  intros HR Hds Hrest. induction Hds as [|d ds Hd _ IH]; cbn.
  - destruct rest as [|c rest]; [done|]. cbn. by rewrite (Hrest c).
  - rewrite (radix_digit_char R d Hd HR). by rewrite IH.
Qed.

(** [parseInt] on an unsigned run of decimal digits, for radix 10. *)
Lemma read_integer_digits (ds : list N) (rest : jsstring) :
  ds <> [] ->
  Forall (fun d => d < 10) ds ->
  (forall c, list.head rest = Some c -> radix_digit 10 c = None) ->
  read_integer ((digit_char <$> ds) ++ rest) 10
  = Some (false, radix_value 10 ds).
Proof.
  intros Hne Hds Hrest.
  destruct ds as [|d ds]; [done|].
  pose proof (Forall_inv Hds) as Hd. cbn beta in Hd.
  destruct (digit_char_plain d ltac:(lia)) as (Hws & Hminus & Hplus).
  unfold read_integer.
  assert (trimStart ((digit_char <$> d :: ds) ++ rest)
          = (digit_char <$> d :: ds) ++ rest) as ->.
  { cbn. by rewrite Hws. }
  assert (startsWith ((digit_char <$> d :: ds) ++ rest) 45 = false) as ->
    by exact Hminus.
  assert (startsWith ((digit_char <$> d :: ds) ++ rest) 43 = false) as ->
    by exact Hplus.
  cbn [orb N.eqb andb].
  change ((10 <? 2) || (36 <? 10)) with false. cbn match.
  change ((10 =? 16)%positive) with false. cbn [andb].
  by rewrite radix_prefix_digits; [|lia|done|done].
Qed.

(** ** What the stat cells are read as *)

(** X6: [toInt] reads the leading run of decimal digits of the cell once
    '+', ',' and '%' are taken out, wherever they stand: thousands separators
    and a percent sign do not change the number, and what follows the first
    character that is not a digit (a decimal point, a unit) is ignored. The
    value is the Number for the integer those digits write, which is that
    integer itself below 2^53. *)
Theorem toInt_reads_digits (cell : jsstring) (ds : list N) (rest : jsstring) :
  ds <> [] ->
  Forall (fun d => d < 10) ds ->
  (forall c, list.head rest = Some c -> radix_digit 10 c = None) ->
  replace_plus_comma_percent cell = (digit_char <$> ds) ++ rest ->
  toInt (Some cell)
  = Normal (or_zero (round_integer (Z.of_N (radix_value 10 ds)))) /\
  ((Z.of_N (radix_value 10 ds) < 2 ^ 53)%Z ->
   integer_value (or_zero (round_integer (Z.of_N (radix_value 10 ds))))
   = Some (Z.of_N (radix_value 10 ds))).
Proof.
  intros Hne Hds Hrest Hcell. split.
  - unfold toInt. rewrite or_zero_parseInt. unfold integer_read.
    by rewrite Hcell, read_integer_digits.
  - intros Hsmall. apply or_zero_round_integer_exact. lia.
Qed.

Lemma toInt_reads_digits_witness :
  toInt (Some (lit "+1,234.5%")) = Normal (round_integer 1234) /\
  integer_value (round_integer 1234) = Some 1234%Z.
Proof.
  destruct (toInt_reads_digits (lit "+1,234.5%") [1; 2; 3; 4] (lit ".5"))
    as [Hread Hexact].
  - discriminate.
  - repeat constructor.
  - intros c [= <-]. reflexivity.
  - reflexivity.
  - split; [exact Hread|]. by apply Hexact.
Defined.

(** ** The header scores *)

(** [parseInt] without a radix on "0x" and hexadecimal digits. *)
Lemma read_integer_hexadecimal (hs : list N) :
  hs <> [] ->
  Forall (fun d => d < 16) hs ->
  read_integer (lit "0x" ++ (digit_char <$> hs)) 0
  = Some (false, radix_value 16 hs).
Proof.
  intros Hne Hhs. unfold read_integer.
  change (trimStart (lit "0x" ++ (digit_char <$> hs)))
    with (lit "0x" ++ (digit_char <$> hs)).
  change (lit "0x" ++ (digit_char <$> hs))
    with (48 :: 120 :: (digit_char <$> hs)).
  cbn [startsWith startsWith_0x N.eqb Pos.eqb orb andb drop].
  change ((10 <? 2) || (36 <? 10)) with false. cbn match.
  replace (drop 0 (digit_char <$> hs)) with ((digit_char <$> hs) ++ [])
    by apply app_nil_r.
  rewrite radix_prefix_digits; [|lia|done|done].
  by destruct hs.
Qed.

(** X7: the header scores are parsed without a radix, so a text that starts
    with "0x" is read as a hexadecimal number there (the Number for it, which
    is the number itself below 2^53), while [toInt], which passes radix 10,
    reads the same text as 0. *)
Theorem score_reads_hexadecimal (hs : list N) :
  hs <> [] ->
  Forall (fun d => d < 16) hs ->
  score_of (Some (lit "0x" ++ (digit_char <$> hs)))
  = or_zero (round_integer (Z.of_N (radix_value 16 hs))) /\
  ((Z.of_N (radix_value 16 hs) < 2 ^ 53)%Z ->
   integer_value (score_of (Some (lit "0x" ++ (digit_char <$> hs))))
   = Some (Z.of_N (radix_value 16 hs))) /\
  toInt (Some (lit "0x" ++ (digit_char <$> hs))) = Normal zero.
Proof.
  intros Hne Hhs.
  assert (score_of (Some (lit "0x" ++ (digit_char <$> hs)))
          = or_zero (round_integer (Z.of_N (radix_value 16 hs)))) as Hscore;
    [|split; [done|]; split; [|reflexivity];
      intros Hsmall; rewrite Hscore;
      apply or_zero_round_integer_exact; lia].
  unfold score_of. cbn [fmap option_fmap option_map ToString].
  rewrite trim_fix.
  - rewrite or_zero_parseInt. unfold integer_read.
    by rewrite read_integer_hexadecimal.
  - split; intros c; [by intros [= <-]|].
    intros [->|[->|Hc]%elem_of_cons]%last_Some_elem_of%elem_of_cons; [done..|].
    apply list_elem_of_fmap in Hc as (d & -> & Hd).
    rewrite Forall_forall in Hhs. apply list_elem_of_In in Hd.
    specialize (Hhs d Hd). cbn beta in Hhs.
    by destruct (digit_char_plain d ltac:(lia)) as (? & _).
Qed.

Lemma score_reads_hexadecimal_witness :
  integer_value (score_of (Some (lit "0x1f"))) = Some 31%Z /\
  toInt (Some (lit "0x1f")) = Normal zero.
Proof.
  destruct (score_reads_hexadecimal [1; 15]) as (_ & Hexact & Hcell).
  - discriminate.
  - repeat constructor.
  - split; [by apply Hexact | exact Hcell].
Defined.

(** A score whose text does not start with '-' is not negative. *)
Lemma score_of_nonnegative (value : option jsstring) :
  (forall s, value = Some s -> startsWith (trim s) 45 = false) ->
  has_sign false (score_of value).
Proof.
  intros H. destruct value as [s|]; [|done].
  unfold score_of. cbn [fmap option_fmap option_map ToString].
  apply or_zero_nonnegative.
  rewrite trimStart_fix; [by apply H|]. apply trim_no_outer_space.
Qed.

Lemma score_of_sign (value : option jsstring) :
  SFltb (score_of value) zero = true ->
  exists s, value = Some s /\ startsWith (trim s) 45 = true.
Proof.
  destruct value as [s|]; [|done].
  intros Hneg. exists s. split; [done|].
  destruct (startsWith (trim s) 45) eqn:Hminus; [done|].
  rewrite has_sign_ltb in Hneg; [done|].
  apply score_of_nonnegative. by intros ? [= <-].
Qed.

(** X8: when the document has neither team-score element, both scores and
    the round count are 0 and [won] is false, whoever the target is. *)
Theorem absent_scores (document : Document) (targetRiotID : jsstring)
    (r : MatchResult.t) :
  evaluate document targetRiotID = Normal r ->
  team_1_value document = None ->
  team_2_value document = None ->
  MatchResult.team1_score r = zero /\
  MatchResult.team2_score r = zero /\
  MatchResult.round_count r = zero /\
  MatchResult.won r = false.
Proof.
  intros (players & _ & ->)%evaluate_Normal -> ->. cbn.
  change (score_of None) with zero. repeat split. apply won_of_tie.
Qed.

Lemma absent_scores_witness :
  exists r,
    evaluate document_scoreless (lit "A#1") = Normal r /\
    MatchResult.round_count r = zero /\
    MatchResult.won r = false.
Proof.
  destruct (absent_scores document_scoreless (lit "A#1") _
              eq_refl eq_refl eq_refl) as (_ & _ & Hcount & Hwon).
  eexists. split; [reflexivity|]. split; [exact Hcount | exact Hwon].
Defined.

(** X9: a score of the result is negative only when the trimmed text of its
    header element starts with '-'; without such a text the round count is
    not negative. *)
Theorem score_negative_only_with_minus (document : Document)
    (targetRiotID : jsstring) (r : MatchResult.t) :
  evaluate document targetRiotID = Normal r ->
  (SFltb (MatchResult.team1_score r) zero = true ->
   exists s, team_1_value document = Some s /\ startsWith (trim s) 45 = true) /\
  (SFltb (MatchResult.team2_score r) zero = true ->
   exists s, team_2_value document = Some s /\ startsWith (trim s) 45 = true) /\
  ((forall s, team_1_value document = Some s -> startsWith (trim s) 45 = false) ->
   (forall s, team_2_value document = Some s -> startsWith (trim s) 45 = false) ->
   SFleb zero (MatchResult.round_count r) = true).
Proof.
  intros (players & _ & ->)%evaluate_Normal. cbn.
  split; [apply score_of_sign|]. split; [apply score_of_sign|].
  intros H1 H2.
  by apply has_sign_leb, number_add_sign; apply score_of_nonnegative.
Qed.

Lemma score_negative_only_with_minus_witness :
  exists r,
    evaluate document_ascent (lit "Nova#KR1") = Normal r /\
    SFleb zero (MatchResult.round_count r) = true.
Proof.
  destruct (score_negative_only_with_minus document_ascent (lit "Nova#KR1") _
              eq_refl) as (_ & _ & Hcount).
  eexists. split; [reflexivity|].
  apply Hcount; intros s Hs; injection Hs as <-; reflexivity.
Defined.

(** ** Two targets on one document *)

(** X10: the target only decides [won]: for two targets the results agree on
    everything else. Targets on the same team get the same [won], and targets
    on different teams never both win. *)
Theorem target_decides_won_only (document : Document)
    (target1 target2 : jsstring) (r1 r2 : MatchResult.t) :
  evaluate document target1 = Normal r1 ->
  evaluate document target2 = Normal r2 ->
  MatchResult.map r1 = MatchResult.map r2 /\
  MatchResult.mode r1 = MatchResult.mode r2 /\
  MatchResult.team1_score r1 = MatchResult.team1_score r2 /\
  MatchResult.team2_score r1 = MatchResult.team2_score r2 /\
  MatchResult.round_count r1 = MatchResult.round_count r2 /\
  MatchResult.players r1 = MatchResult.players r2 /\
  (user_team_of (MatchResult.players r1) target1
   = user_team_of (MatchResult.players r2) target2 ->
   MatchResult.won r1 = MatchResult.won r2) /\
  (user_team_of (MatchResult.players r1) target1
   <> user_team_of (MatchResult.players r2) target2 ->
   ~ (MatchResult.won r1 = true /\ MatchResult.won r2 = true)).
Proof.
  intros (players & Hplayers & ->)%evaluate_Normal
         (players' & Hplayers' & ->)%evaluate_Normal.
  rewrite Hplayers in Hplayers'. injection Hplayers' as <-. cbn.
  repeat split; try done.
  - by intros ->.
  - intros Hteams [H1%won_of_beats H2%won_of_beats].
    destruct H1 as [[E1 G1]|[E1 G1]], H2 as [[E2 G2]|[E2 G2]];
      try congruence; apply number_gt_asym in G1; congruence.
Qed.

Lemma target_decides_won_only_witness :
  exists r1 r2,
    evaluate document_ascent (lit "Nova#KR1") = Normal r1 /\
    evaluate document_ascent (lit "J#10") = Normal r2 /\
    MatchResult.players r1 = MatchResult.players r2 /\
    ~ (MatchResult.won r1 = true /\ MatchResult.won r2 = true).
Proof.
  destruct (target_decides_won_only document_ascent
              (lit "Nova#KR1") (lit "J#10") _ _ eq_refl eq_refl)
    as (_ & _ & _ & _ & _ & Hplayers & _ & Hopposite).
  eexists _, _. split; [reflexivity|]. split; [reflexivity|].
  split; [exact Hplayers|]. apply Hopposite. discriminate.
Defined.

(** ** The header fields *)

Lemma nil_not_known : [] ∉ knownMaps.
Proof.
  intros H. apply list_elem_of_In in H. cbn in H. intuition discriminate.
Qed.

(** X12: the map of a result is one of the twelve known maps or "Unknown",
    and a known map is the trimmed text of the first header value; the mode
    carries no white space at either end. *)
Theorem header_fields (document : Document) (targetRiotID : jsstring)
    (r : MatchResult.t) :
  evaluate document targetRiotID = Normal r ->
  MatchResult.map r ∈ knownMaps ++ [lit "Unknown"] /\
  (MatchResult.map r <> lit "Unknown" ->
   exists v, header_values document !! 0%nat = Some v /\
             trim v = MatchResult.map r) /\
  no_outer_space (MatchResult.mode r).
Proof.
  intros (players & _ & ->)%evaluate_Normal.
  cbn [MatchResult.map MatchResult.mode].
  destruct (map_of_spec (mapText_of document)) as [Hin Hout].
  split; [|split].
  - apply elem_of_app.
    destruct (decide (mapText_of document ∈ knownMaps)) as [H|H].
    + left. by rewrite (Hin H).
    + right. rewrite (Hout H). left.
  - intros Hknown.
    destruct (decide (mapText_of document ∈ knownMaps)) as [H|H];
      [|by rewrite (Hout H) in Hknown].
    rewrite (Hin H). unfold mapText_of in *.
    rewrite list_lookup_fmap in *.
    destruct (header_values document !! 0%nat) as [v|];
      cbn [fmap option_fmap option_map or_string] in *.
    + exists v. split; [done|]. destruct (trim v); [|done].
      by apply nil_not_known in H.
    + by apply nil_not_known in H.
  - apply or_string_no_outer_space; [|apply no_outer_space_nil].
    intros s Hs. rewrite list_lookup_fmap in Hs.
    destruct (header_labels document !! 0%nat) as [v|]; [|done].
    injection Hs as <-. apply trim_no_outer_space.
Qed.

Lemma header_fields_witness :
  exists r,
    evaluate document_ascent (lit "Nova#KR1") = Normal r /\
    MatchResult.map r ∈ knownMaps ++ [lit "Unknown"] /\
    no_outer_space (MatchResult.mode r).
Proof.
  destruct (header_fields document_ascent (lit "Nova#KR1") _ eq_refl)
    as (Hmap & _ & Hmode).
  eexists. split; [reflexivity|]. split; [exact Hmap | exact Hmode].
Defined.

(** ** The ratios *)

Lemma or_zero_spec (x : Number) :
  or_zero x <> NaN /\ (forall s, or_zero x = S754_zero s -> s = false).
Proof.
  destruct x as [s|s| |s m e]; cbn; split; try done; by intros ? [= <-].
Qed.

(** X13: the three ratios of an emitted record are read from cells that are
    there; none of them is NaN, and a ratio that is zero, be it written with
    a sign or too small for a double, is +0. *)
Theorem ratios_never_NaN (row : Row) (index : nat) (p : PlayerRecord.t) :
  row_callback row index = Normal (Some p) ->
  Forall (fun kv =>
            exists cell,
              item_values row !! kv.1 = Some cell /\
              kv.2 = or_zero
                       (parseFloat (replace_plus_comma_percent (trim cell))) /\
              kv.2 <> NaN /\
              (forall s, kv.2 = S754_zero s -> s = false))
    (float_stats p).
Proof.
  intros H. apply row_callback_fields in H as (_ & _ & _ & _ & _ & H7 & H9 & H10).
  assert (forall k x, toFloat (cells_of row !! k) = Normal x ->
            exists cell,
              item_values row !! k = Some cell /\
              x = or_zero
                    (parseFloat (replace_plus_comma_percent (trim cell))) /\
              x <> NaN /\
              (forall s, x = S754_zero s -> s = false)) as Hstat.
  { intros k x (s & Hs & ->)%toFloat_Normal.
    unfold cells_of in Hs. rewrite list_lookup_fmap in Hs.
    destruct (item_values row !! k) as [cell|]; [|done].
    injection Hs as <-. exists cell. split; [done|]. split; [done|].
    apply or_zero_spec. }
  unfold float_stats. do 3 (constructor; [by apply Hstat|]). constructor.
Qed.

Lemma ratios_never_NaN_witness :
  exists p,
    row_callback zero_ratio_row 0 = Normal (Some p) /\
    PlayerRecord.kd_ratio p <> NaN.
Proof.
  destruct (Forall_inv (ratios_never_NaN zero_ratio_row 0 _ eq_refl))
    as (cell & _ & _ & Hnan & _).
  eexists. split; [reflexivity | exact Hnan].
Defined.

(** The literal read in digits, a point and digits. *)
Lemma decimal_literal_digits (ds fs : list N) :
  ds <> [] ->
  Forall (fun d => d < 10) ds ->
  Forall (fun d => d < 10) fs ->
  decimal_literal ((digit_char <$> ds) ++ lit "." ++ (digit_char <$> fs))
  = DecimalLiteral false (radix_value 10 (ds ++ fs)) (- Z.of_nat (length fs)).
Proof.
  intros Hne Hds Hfs.
  set (s := (digit_char <$> ds) ++ lit "." ++ (digit_char <$> fs)).
  destruct ds as [|d ds]; [done|].
  pose proof (Forall_inv Hds) as Hd. cbn beta in Hd.
  destruct (digit_char_plain d ltac:(lia)) as (Hws & Hminus & Hplus).
  assert (decimal_digits s = d :: ds) as Hint.
  { unfold decimal_digits, s. apply radix_prefix_digits; [lia | done |].
    intros c [= <-]. reflexivity. }
  assert (decimal_digits (digit_char <$> fs) = fs) as Hfrac.
  { unfold decimal_digits. rewrite <- (app_nil_r (digit_char <$> fs)).
    apply radix_prefix_digits; [lia | done | done]. }
  assert (drop (length (d :: ds)) s = 46 :: (digit_char <$> fs)) as Hrest.
  { unfold s. rewrite <- (length_fmap digit_char (d :: ds)).
    by rewrite drop_app_length. }
  unfold decimal_literal.
  assert (trimStart s = s) as -> by (unfold s; cbn; by rewrite Hws).
  assert (startsWith s 43 = false) as -> by exact Hplus.
  assert (startsWith s 45 = false) as -> by exact Hminus.
  unfold unsigned_decimal.
  case_bool_decide as Hinf.
  { exfalso. unfold s in Hinf. cbn in Hinf. injection Hinf as Hinf _.
    unfold digit_char in Hinf. destruct (d <? 10); lia. }
  rewrite Hint, Hrest. cbn match. cbn beta. rewrite Hfrac.
  cbn [is_nil andb].
  replace (drop (length fs) (digit_char <$> fs)) with (@nil N)
    by (rewrite <- (length_fmap digit_char fs); by rewrite drop_all).
  cbn [exponent_part]. reflexivity.
Qed.

(** X14: [toFloat] reads a cell written as digits, a point and digits, with
    '+', ',' and '%' taken out first, as the Number for those digits with the
    point moved: the double nearest to [mantissa * 10^-k], where [mantissa]
    is all the digits and [k] the number of digits after the point. *)
Theorem toFloat_reads_decimal (cell : jsstring) (ds fs : list N) :
  ds <> [] ->
  Forall (fun d => d < 10) ds ->
  Forall (fun d => d < 10) fs ->
  replace_plus_comma_percent cell
  = (digit_char <$> ds) ++ lit "." ++ (digit_char <$> fs) ->
  toFloat (Some cell)
  = Normal (or_zero
              (number_of_literal
                 (DecimalLiteral false (radix_value 10 (ds ++ fs))
                    (- Z.of_nat (length fs))))).
Proof.
  intros Hne Hds Hfs Hcell. unfold toFloat, parseFloat. rewrite Hcell.
  by rewrite decimal_literal_digits.
Qed.

Lemma toFloat_reads_decimal_witness :
  toFloat (Some (lit "1,150.5%")) = Normal (round_decimal false 11505 (-1)).
Proof.
  apply (toFloat_reads_decimal (lit "1,150.5%") [1; 1; 5; 0] [5]).
  - discriminate.
  - repeat constructor.
  - repeat constructor.
  - reflexivity.
Defined.

(** ** Variants of the markup of an identity *)

Lemma cleanName_of_hash (n : jsstring) : cleanName_of (n ++ lit "#") = n.
Proof.
  unfold cleanName_of.
  assert (endsWith (n ++ lit "#") 35 = true) as ->
    by (apply endsWith_true; eauto).
  unfold slice_0_m1. apply removelast_last.
Qed.

(** X15: a name with or without its trailing '#' and a tag with or without
    its leading '#' give one and the same identity; only one '#' is removed on
    each side, so doubled ones stay. *)
Theorem identity_variants (n t : jsstring) :
  endsWith n 35 = false ->
  startsWith t 35 = false ->
  name_of n t = n ++ lit "#" ++ t /\
  name_of (n ++ lit "#") t = n ++ lit "#" ++ t /\
  name_of n (lit "#" ++ t) = n ++ lit "#" ++ t /\
  name_of (n ++ lit "#") (lit "#" ++ t) = n ++ lit "#" ++ t /\
  name_of (n ++ lit "##") (lit "##" ++ t) = n ++ lit "###" ++ t.
Proof.
  intros Hn Ht.
  assert (cleanName_of n = n) as En by (unfold cleanName_of; by rewrite Hn).
  assert (cleanTag_of t = t) as Et by (unfold cleanTag_of; by rewrite Ht).
  assert (forall u, cleanTag_of (lit "#" ++ u) = u) as Eh by done.
  unfold name_of. rewrite En, Et, !Eh, cleanName_of_hash.
  repeat split.
  change (lit "##") with (lit "#" ++ lit "#").
  rewrite (assoc_L (++) n), cleanName_of_hash.
  rewrite <- !(assoc_L (++)). by rewrite Eh.
Qed.

Lemma identity_variants_witness :
  name_of (lit "Foo") (lit "Bar") = lit "Foo#Bar" /\
  name_of (lit "Foo#") (lit "Bar") = lit "Foo#Bar" /\
  name_of (lit "Foo") (lit "#Bar") = lit "Foo#Bar" /\
  name_of (lit "Foo#") (lit "#Bar") = lit "Foo#Bar" /\
  name_of (lit "Foo##") (lit "##Bar") = lit "Foo###Bar".
Proof. apply (identity_variants (lit "Foo") (lit "Bar")); reflexivity. Defined.

(** ** White space around the texts *)

Lemma fmap_trim_idempotent (l : list jsstring) :
  trim <$> (trim <$> l) = trim <$> l.
Proof.
  rewrite <- list_fmap_compose. apply list_fmap_ext.
  intros _ s _. apply trim_idempotent.
Qed.

Lemma option_trim_idempotent (o : option jsstring) :
  trim <$> (trim <$> o) = trim <$> o.
Proof. destruct o; cbn; [|done]. by rewrite trim_idempotent. Qed.

Lemma row_callback_trim_row (row : Row) (index : nat) :
  row_callback (trim_row row) index = row_callback row index.
Proof.
  assert (rawName_of (trim_row row) = rawName_of row) as En.
  { unfold rawName_of. cbn. by rewrite option_trim_idempotent. }
  assert (rawTag_of (trim_row row) = rawTag_of row) as Et.
  { unfold rawTag_of. cbn. by rewrite option_trim_idempotent. }
  assert (cells_of (trim_row row) = cells_of row) as Ec.
  { unfold cells_of. cbn. apply fmap_trim_idempotent. }
  unfold row_callback, rejected. rewrite En, Et, Ec.
  cbn [agentImg_alt rankImg_alt trim_row].
  by rewrite option_trim_idempotent.
Qed.

Lemma array_map_trim_row (rows : list Row) (index : nat) :
  array_map row_callback index (trim_row <$> rows)
  = array_map row_callback index rows.
Proof.
  revert index. induction rows as [|row rest IH]; intros index; [done|].
  cbn [fmap list_fmap array_map]. rewrite row_callback_trim_row.
  change (list_fmap _ _ trim_row rest) with (trim_row <$> rest).
  by rewrite IH.
Qed.

(** X16: white space around the texts of the document does not count:
    removing it beforehand from the names, tags, agent labels, stat cells,
    header labels, header values and score texts gives the same result, or
    the same failure. *)
Theorem evaluate_trim_document (document : Document) (targetRiotID : jsstring) :
  evaluate (trim_document document) targetRiotID
  = evaluate document targetRiotID.
Proof.
  unfold evaluate, players_of, mapText_of, score_of.
  cbn [trim_document header_labels header_values st_content_items
         team_1_value team_2_value].
  by rewrite !fmap_trim_idempotent, !option_trim_idempotent, array_map_trim_row.
Qed.
